(** * HavenHomes: authentication, authorization and storage core

    A shallow embedding of the server-side core of the marketplace:
    - [Schema]      the [users] and [favorites] tables of shared/schema.ts,
    - [Storage]     [DatabaseStorage] of server/storage.ts (the statements it
                    sends to the database, with PostgreSQL's conflict rules),
    - [Session]     the passport session tuple and the gate [isAuthenticated],
    - [Passport]    strategies, and the answers of passport and of the
                    session layer to the callback handlers,
    - [ReplitAuth]  server/replitAuth.ts,
    - [GoogleAuth]  server/googleAuth.ts,
    - [Middleware]  [requireRole] of server/middleware.ts,
    - [Routes]      the PATCH /api/auth/user handler of server/routes.ts,
    - [ReplitLogin] the login entry point and [verify] of replitAuth.ts,
    - [MessageStorage], [MoreRoutes]  the message operations of storage.ts
                    and the profile, favorites and message handlers of
                    routes.ts,
    followed by the properties of the gate, the session store, the users
    table, the role gate, the callback handlers, the registered strategies,
    the profile update and the favorites table, and by further properties of
    the same code: middleware chains, strategy selection, first login, round
    trips and invariants of the tables, and the favorites and message routes.

    Asynchronous code is written in direct style: every [await] is a point
    where the environment (identity provider, session store, database)
    answers, and the answer is an explicit argument of the model. *)

From stdpp Require Import gmap strings list fin_maps.
From Stdlib Require Import ZArith Ascii.

Local Open Scope string_scope.
Local Open Scope Z_scope.

(** ** Results of fallible calls *)

(** A promise that resolves ([Ok]) or rejects ([Err]). *)
Inductive Result (A : Type) : Type :=
| Ok (a : A)
| Err (msg : string).
Arguments Ok {A} a.
Arguments Err {A} msg.

(** ** HTTP responses as the handlers build them *)

(** The bodies the handlers send are flat JSON objects. *)
Inductive JsonValue : Type :=
| JNull
| JNum (n : Z)
| JString (s : string)
| JStrings (items : list string).   (* an array of strings *)

Definition Json : Type := list (string * JsonValue).

Inductive Response : Type :=
| SendJson (status : Z) (body : Json)   (* res.status(s).json(body) *)
| Redirect (url : string).              (* res.redirect(url) *)

(** What a middleware does with the request: hand it to the next stage,
    hand an error to the error pipeline, or answer it. *)
Inductive Flow : Type :=
| Next
| NextErr (err : string)
| Reply (r : Response).

Definition unauthorized : Response :=
  SendJson 401 [("message", JString "Unauthorized")].

(** ** JavaScript truthiness of the values the code tests *)

(** [!!s] for a string that may be undefined: the empty string is falsy. *)
Definition truthy_str (s : option string) : bool :=
  match s with
  | Some s => negb (String.eqb s "")
  | None => false
  end.

(** [!!n] for a number that may be undefined: zero is falsy. *)
Definition truthy_num (n : option Z) : bool :=
  match n with
  | Some n => negb (Z.eqb n 0)
  | None => false
  end.

(** [s.split(sep)] for a one-character separator. *)
Fixpoint split_from (sep : Ascii.ascii) (cur : string) (s : string) : list string :=
  match s with
  | EmptyString => [String.rev cur]
  | String c rest =>
      if Ascii.eqb c sep
      then String.rev cur :: split_from sep EmptyString rest
      else split_from sep (String c cur) rest
  end.

Definition split (sep : Ascii.ascii) (s : string) : list string :=
  split_from sep EmptyString s.

(** [xs.includes(x)] on an array of strings. *)
Definition includes (xs : list string) (x : string) : bool :=
  existsb (String.eqb x) xs.

(** ** shared/schema.ts *)

Module Schema.

(** [role: varchar("role", { enum: ["buyer","seller","agent","admin"] })] *)
Inductive Role : Type := buyer | seller | agent | admin.

#[global] Instance Role_eq_dec : EqDecision Role.
Proof. solve_decision. Defined.

Definition role_name (r : Role) : string :=
  match r with
  | buyer => "buyer"
  | seller => "seller"
  | agent => "agent"
  | admin => "admin"
  end.

(** What a caller may put in a column of an insert or update: leave the
    key out ([Undefined]), pass [null], or pass a value. *)
Inductive Col (A : Type) : Type :=
| Undefined
| Null
| Val (a : A).
Arguments Undefined {A}.
Arguments Null {A}.
Arguments Val {A} a.

End Schema.
Export Schema.

(** A row of the [users] table ([typeof users.$inferSelect]). *)
Module User.
Record t : Type := mk {
  id : string;
  email : option string;
  firstName : option string;
  lastName : option string;
  profileImageUrl : option string;
  role : Role;
  phone : option string;
  bio : option string;
  createdAt : option Z;
  updatedAt : option Z
}.
End User.

(** [UpsertUser]: [upsertUserSchema], every key optional. *)
Module UpsertUser.
Record t : Type := mk {
  id : option string;
  email : Col string;
  firstName : Col string;
  lastName : Col string;
  profileImageUrl : Col string;
  role : option Role;
  phone : Col string;
  bio : Col string
}.
End UpsertUser.

(** A row of the [favorites] table; [insertFavoriteSchema] omits [id] and
    [createdAt]. *)
Module Favorite.
Record t : Type := mk {
  id : string;
  userId : string;
  propertyId : string;
  createdAt : option Z
}.
End Favorite.

Module InsertFavorite.
Record t : Type := mk {
  userId : string;
  propertyId : string
}.
End InsertFavorite.

(** ** server/storage.ts *)

(** [IStorage]: the operations of the storage interface used by the
    authentication core and by the favorites routes.  A call that writes
    returns the new storage state next to its value; [now] and [uuid] are
    what the database yields for [now()] and [gen_random_uuid()] while the
    statement runs. *)
Module IStorage.
Class t (S : Type) : Type := {
  getUser : S → string → Result (option User.t);
  upsertUser : Z → string → S → UpsertUser.t → Result (User.t * S);
  getFavorite : S → string → string → Result (option Favorite.t);
  addFavorite : Z → string → S → InsertFavorite.t → Result (Favorite.t * S);
  removeFavorite : S → string → string → Result (bool * S)
}.
End IStorage.

Module Storage.

(** The tables the statements below read and write.  Of the properties
    table only the primary keys matter here (they are the target of the
    foreign key of [favorites.property_id]). *)
Record Db : Type := mkDb {
  users : gmap string User.t;
  properties : gset string;
  favorites : list Favorite.t
}.

Definition set_users (db : Db) (us : gmap string User.t) : Db :=
  {| users := us; properties := properties db; favorites := favorites db |}.

Definition set_favorites (db : Db) (fs : list Favorite.t) : Db :=
  {| users := users db; properties := properties db; favorites := fs |}.

(** *** Column values *)

(** A nullable column of an inserted row: a key left out takes the column
    default, which is NULL for every nullable column of [users]. *)
Definition col_insert {A : Type} (c : Col A) : option A :=
  match c with
  | Undefined => None
  | Null => None
  | Val a => Some a
  end.

(** A nullable column under [SET]: the ORM drops keys whose value is
    undefined from the SET list, so the column keeps its value. *)
Definition col_set {A : Type} (c : Col A) (old : option A) : option A :=
  match c with
  | Undefined => old
  | Null => None
  | Val a => Some a
  end.

(** [.values(userData)] on a free primary key. *)
Definition inserted_user (key : string) (now : Z) (d : UpsertUser.t) : User.t :=
  {| User.id := key;
     User.email := col_insert (UpsertUser.email d);
     User.firstName := col_insert (UpsertUser.firstName d);
     User.lastName := col_insert (UpsertUser.lastName d);
     User.profileImageUrl := col_insert (UpsertUser.profileImageUrl d);
     User.role := default buyer (UpsertUser.role d);
     User.phone := col_insert (UpsertUser.phone d);
     User.bio := col_insert (UpsertUser.bio d);
     User.createdAt := Some now;
     User.updatedAt := Some now |}.

(** [.onConflictDoUpdate({ target: users.id,
                           set: { ...userData, updatedAt: new Date() } })]
    on the row [old] that holds the primary key. *)
Definition updated_user (now : Z) (d : UpsertUser.t) (old : User.t) : User.t :=
  {| User.id := default (User.id old) (UpsertUser.id d);
     User.email := col_set (UpsertUser.email d) (User.email old);
     User.firstName := col_set (UpsertUser.firstName d) (User.firstName old);
     User.lastName := col_set (UpsertUser.lastName d) (User.lastName old);
     User.profileImageUrl :=
       col_set (UpsertUser.profileImageUrl d) (User.profileImageUrl old);
     User.role := default (User.role old) (UpsertUser.role d);
     User.phone := col_set (UpsertUser.phone d) (User.phone old);
     User.bio := col_set (UpsertUser.bio d) (User.bio old);
     User.createdAt := User.createdAt old;
     User.updatedAt := Some now |}.

(** [users_email_unique]: the statement fails when it writes an email that
    another row already holds (NULLs never collide). *)
Definition email_taken (us : gmap string User.t) (key : string)
    (c : Col string) : bool :=
  match c with
  | Val e => bool_decide (map_Exists (λ k u, k ≠ key ∧ User.email u = Some e) us)
  | _ => false
  end.

(** *** User operations *)

Definition getUser (db : Db) (id : string) : Result (option User.t) :=
  Ok (users db !! id).

Definition upsertUser (now : Z) (uuid : string) (db : Db) (userData : UpsertUser.t)
    : Result (User.t * Db) :=
  let key := default uuid (UpsertUser.id userData) in
  if email_taken (users db) key (UpsertUser.email userData)
  then Err "duplicate key value violates unique constraint users_email_unique"
  else
    let user :=
      match users db !! key with
      | Some old => updated_user now userData old
      | None => inserted_user key now userData
      end in
    Ok (user, set_users db (<[key := user]> (users db))).

(** *** Favorite operations *)

Definition same_pair (userId propertyId : string) (f : Favorite.t) : bool :=
  String.eqb (Favorite.userId f) userId
  && String.eqb (Favorite.propertyId f) propertyId.

Definition getFavorite (db : Db) (userId propertyId : string)
    : Result (option Favorite.t) :=
  Ok (head (List.filter (same_pair userId propertyId) (favorites db))).

(** [.onConflictDoNothing()] names no target: a clash with the primary key
    or with [favorites_user_id_property_id_unique] skips the row. *)
Definition conflicts (uuid : string) (ins : InsertFavorite.t) (f : Favorite.t) : bool :=
  String.eqb (Favorite.id f) uuid
  || same_pair (InsertFavorite.userId ins) (InsertFavorite.propertyId ins) f.

(** The foreign keys of the row are checked once it is inserted. *)
Definition references_ok (db : Db) (ins : InsertFavorite.t) : bool :=
  bool_decide (InsertFavorite.userId ins ∈ dom (users db))
  && bool_decide (InsertFavorite.propertyId ins ∈ properties db).

Definition addFavorite (now : Z) (uuid : string) (db : Db)
    (insertFavorite : InsertFavorite.t) : Result (Favorite.t * Db) :=
  if existsb (conflicts uuid insertFavorite) (favorites db)
  then
    (* no row returned: fetch the existing one *)
    match getFavorite db (InsertFavorite.userId insertFavorite)
                         (InsertFavorite.propertyId insertFavorite) with
    | Ok (Some existing) => Ok (existing, db)
    | Ok None => Err "Failed to add favorite"
    | Err e => Err e
    end
  else if references_ok db insertFavorite
  then
    let favorite :=
      {| Favorite.id := uuid;
         Favorite.userId := InsertFavorite.userId insertFavorite;
         Favorite.propertyId := InsertFavorite.propertyId insertFavorite;
         Favorite.createdAt := Some now |} in
    Ok (favorite, set_favorites db (favorites db ++ [favorite]))
  else Err "insert or update on table favorites violates foreign key constraint".

Definition removeFavorite (db : Db) (userId propertyId : string)
    : Result (bool * Db) :=
  let kept := List.filter (λ f, negb (same_pair userId propertyId f)) (favorites db) in
  let rowCount := (length (favorites db) - length kept)%nat in
  Ok (bool_decide (0 < rowCount)%nat, set_favorites db kept).

(** [export const storage = new DatabaseStorage()] *)
#[global] Instance DatabaseStorage : IStorage.t Db := {
  getUser := getUser;
  upsertUser := upsertUser;
  getFavorite := getFavorite;
  addFavorite := addFavorite;
  removeFavorite := removeFavorite
}.

End Storage.

(** ** The session tuple and the authentication gate *)

Module Session.

(** Claims of a validated ID token: the subject, the expiry as epoch
    seconds, and the remaining string-valued claims by name. *)
Record Claims : Type := mkClaims {
  sub : string;
  exp : Z;
  extra : gmap string string
}.

(** [claims[name]] as a column value for the upsert. *)
Definition claim (c : Claims) (name : string) : Col string :=
  match extra c !! name with
  | Some v => Val v
  | None => Undefined
  end.

(** The object kept in the session ([req.user]): every key may be undefined. *)
Record SessionUser : Type := mkSessionUser {
  claims : option Claims;
  access_token : option string;
  refresh_token : option string;
  expires_at : option Z
}.

(** [const user = {}] *)
Definition empty_user : SessionUser :=
  {| claims := None; access_token := None; refresh_token := None; expires_at := None |}.

(** [now <= user.expires_at]: a comparison with undefined is false. *)
Definition le_num (now : Z) (x : option Z) : bool :=
  match x with
  | Some e => Z.leb now e
  | None => false
  end.

(** The identity provider as the gate sees it within one request:
    whether the memoized discovery resolves, and what the token endpoint
    answers to a refresh-token grant ([None]: the call throws). *)
Record Provider (Tokens : Type) : Type := mkProvider {
  getOidcConfig : bool;
  refreshTokenGrant : string → option Tokens
}.
Arguments getOidcConfig {Tokens} p.
Arguments refreshTokenGrant {Tokens} p refreshToken.

(** Calls that reach the provider's token endpoint. *)
Inductive ProviderCall : Type :=
| RefreshCall (refreshToken : string).

(** What the gate did: how the request continues, the session tuple once the
    gate is done with it (it is mutated in place), and the provider calls. *)
Record GateResult : Type := mkGateResult {
  flow : Flow;
  user_after : option SessionUser;
  provider_calls : list ProviderCall
}.

Section Gate.

Context {Tokens : Type}.
(** The two integrations differ in [updateUserSession] only. *)
Variable updateUserSession : SessionUser → Tokens → SessionUser.

(** [req.isAuthenticated()]: passport answers whether [req.user] is set. *)
Definition req_isAuthenticated (user : option SessionUser) : bool :=
  match user with
  | Some _ => true
  | None => false
  end.

Definition isAuthenticated (P : Provider Tokens) (clock_ms : Z)
    (user : option SessionUser) : GateResult :=
  if negb (req_isAuthenticated user) || negb (truthy_num (user ≫= expires_at))
  then mkGateResult (Reply unauthorized) user []
  else
    let now := clock_ms / 1000 in
    if le_num now (user ≫= expires_at)
    then mkGateResult Next user []
    else
      let refreshToken := user ≫= refresh_token in
      if negb (truthy_str refreshToken)
      then mkGateResult (Reply unauthorized) user []
      else
        (* try *)
        if getOidcConfig P
        then
          let token := default "" refreshToken in
          match refreshTokenGrant P token with
          | Some tokenResponse =>
              mkGateResult Next
                (flip updateUserSession tokenResponse <$> user)
                [RefreshCall token]
          | None => mkGateResult (Reply unauthorized) user [RefreshCall token]
          end
        else mkGateResult (Reply unauthorized) user [].

(** *** The gate in front of the session store *)

(** The store maps a session identifier to the tuple saved under it.  The
    session middleware loads the record named by the cookie before the gate
    runs ([deserializeUser] is the identity, so [req.user] is that record)
    and writes the record back when the response ends. *)
Definition req_user (store : gmap string SessionUser) (sid : option string)
    : option SessionUser :=
  sid ≫= (store !!.).

Definition save_session (store : gmap string SessionUser) (sid : option string)
    (user : option SessionUser) : gmap string SessionUser :=
  match sid, user with
  | Some s, Some u => <[s := u]> store
  | _, _ => store
  end.

Definition gated_request (P : Provider Tokens) (store : gmap string SessionUser)
    (sid : option string) (clock_ms : Z)
    : GateResult * gmap string SessionUser :=
  let r := isAuthenticated P clock_ms (req_user store sid) in
  (r, save_session store sid (user_after r)).

(** A run of requests that present the same cookie, one per clock reading. *)
Fixpoint gated_requests (P : Provider Tokens) (store : gmap string SessionUser)
    (sid : option string) (clocks : list Z)
    : list Flow * gmap string SessionUser :=
  match clocks with
  | [] => ([], store)
  | t :: rest =>
      let '(r, store') := gated_request P store sid t in
      let '(flows, store'') := gated_requests P store' sid rest in
      (flow r :: flows, store'')
  end.

(** *** The conditions of rejection *)

(** The try block failed: discovery rejected or the grant threw. *)
Definition refresh_fails (P : Provider Tokens) (refreshToken : string) : Prop :=
  getOidcConfig P = false ∨ refreshTokenGrant P refreshToken = None.

(** The four conditions, with "in the past" read against the clock in whole
    seconds and "refresh token present" as a non-empty token. *)
Inductive rejected_as_stated (P : Provider Tokens) (now : Z)
    : option SessionUser → Prop :=
| stated_no_user :
    rejected_as_stated P now None
| stated_expiry_missing u :
    expires_at u = None →
    rejected_as_stated P now (Some u)
| stated_expired_no_refresh u e :
    expires_at u = Some e → e < now →
    truthy_str (refresh_token u) = false →
    rejected_as_stated P now (Some u)
| stated_refresh_failed u e token :
    expires_at u = Some e → e < now →
    refresh_token u = Some token → token ≠ "" →
    refresh_fails P token →
    rejected_as_stated P now (Some u).

(** The same with the test the code makes on the expiry: [!user.expires_at]
    holds for a missing expiry and for the number zero. *)
Inductive rejected (P : Provider Tokens) (now : Z)
    : option SessionUser → Prop :=
| rejected_no_user :
    rejected P now None
| rejected_expiry_falsy u :
    truthy_num (expires_at u) = false →
    rejected P now (Some u)
| rejected_expired_no_refresh u e :
    expires_at u = Some e → e < now →
    truthy_str (refresh_token u) = false →
    rejected P now (Some u)
| rejected_refresh_failed u e token :
    expires_at u = Some e → e < now →
    refresh_token u = Some token → token ≠ "" →
    refresh_fails P token →
    rejected P now (Some u).

End Gate.

End Session.

(** ** passport and express-session as the callback handlers use them *)

Module Passport.
Import Session.

(** A registered strategy; the scope is a space-separated list. *)
Record Strategy : Type := mkStrategy {
  name : string;
  scope : string;
  callbackURL : string
}.

(** [passport.use]: strategies are kept by name, a later one replaces an
    earlier one of the same name. *)
Definition passport_use (s : Strategy) (registry : gmap string Strategy)
    : gmap string Strategy :=
  <[name s := s]> registry.

Definition scopes (s : Strategy) : list string := split " "%char (scope s).

(** What [passport.authenticate(strategy, callback)] reports to its callback:
    [(err)], [(null, false, info)] or [(null, user)]. *)
Inductive Authentication : Type :=
| AuthError (err : string)
| AuthFailure (info : string)
| AuthSuccess (user : SessionUser).

(** The answers of the session layer during one callback: the identifier the
    generator draws for the regenerated session, and the error, if any, that
    each operation passes to its continuation. *)
Record SessionAnswers : Type := mkSessionAnswers {
  new_sid : string;
  regenerate : Result unit;
  logIn : Result unit;
  save : Result unit
}.

Inductive SessionOp : Type := OpRegenerate | OpLogIn | OpSave.

(** The request once the handler is done: how it continues, the session
    store, the identifier of the request's session, the user attached to the
    request, and the session operations in the order they ran. *)
Record CallbackResult : Type := mkCallbackResult {
  cb_flow : Flow;
  cb_store : gmap string SessionUser;
  cb_sid : option string;
  cb_user : option SessionUser;
  cb_ops : list SessionOp
}.

(** [req.session.regenerate]: the store destroys the record of the current
    identifier, a session with a new identifier replaces it on the request,
    and the error of the destroy, if any, goes to the continuation. *)
Definition regenerated_store (a : SessionAnswers) (store : gmap string SessionUser)
    (sid : option string) : gmap string SessionUser :=
  match regenerate a, sid with
  | Ok _, Some s => delete s store
  | _, _ => store
  end.

(** [req.session.save]: the store sets the record of the current identifier. *)
Definition saved_store (a : SessionAnswers) (store : gmap string SessionUser)
    (user : SessionUser) : gmap string SessionUser :=
  match save a with
  | Ok _ => <[new_sid a := user]> store
  | Err _ => store
  end.

End Passport.

(** ** server/replitAuth.ts *)

Module ReplitAuth.
Import Session Passport.

(** [client.TokenEndpointResponse & client.TokenEndpointResponseHelpers];
    [claims] is the result of [tokens.claims()], undefined when the response
    carries no ID token. *)
Module Tokens.
Record t : Type := mk {
  claims : option Claims;
  access_token : string;
  refresh_token : option string
}.
End Tokens.

Definition updateUserSession (user : SessionUser) (tokens : Tokens.t) : SessionUser :=
  let claims := Tokens.claims tokens in
  {| claims := claims;
     access_token := Some (Tokens.access_token tokens);
     refresh_token := Tokens.refresh_token tokens;
     expires_at := exp <$> claims |}.

Definition upsertUser {S : Type} `{IStorage.t S} (now : Z) (uuid : string) (st : S)
    (claims : Claims) : Result (User.t * S) :=
  IStorage.upsertUser now uuid st
    {| UpsertUser.id := Some (sub claims);
       UpsertUser.email := claim claims "email";
       UpsertUser.firstName := claim claims "first_name";
       UpsertUser.lastName := claim claims "last_name";
       UpsertUser.profileImageUrl := claim claims "profile_image_url";
       UpsertUser.role := None;
       UpsertUser.phone := Undefined;
       UpsertUser.bio := Undefined |}.

(** [process.env] as [setupAuth] reads it. *)
Record Env : Type := mkEnv {
  REPLIT_DOMAINS : string;
  NODE_ENV : option string
}.

Definition is_production (env : Env) : bool :=
  bool_decide (NODE_ENV env = Some "production").

Definition domain_strategy (domain : string) : Strategy :=
  {| name := "replitauth:" ++ domain;
     scope := "openid email profile offline_access";
     callbackURL := "https://" ++ domain ++ "/api/callback" |}.

Definition dev_strategy (host : string) : Strategy :=
  {| name := "replitauth:" ++ host;
     scope := "openid email profile offline_access";
     callbackURL := "http://" ++ host ++ ":5000/api/callback" |}.

(** The strategies [setupAuth] leaves registered. *)
Definition setupAuth (env : Env) : gmap string Strategy :=
  let registry :=
    foldl (λ reg domain, passport_use (domain_strategy domain) reg) ∅
      (split ","%char (REPLIT_DOMAINS env)) in
  if negb (is_production env)
  then
    let localhostHosts := ["localhost"; "127.0.0.1"] in
    foldl (λ reg host, passport_use (dev_strategy host) reg) registry localhostHosts
  else registry.

(** [app.get("/api/callback", ...)] *)
Definition callback (auth : Authentication) (a : SessionAnswers)
    (store : gmap string SessionUser) (sid : option string) : CallbackResult :=
  match auth with
  | AuthError err => mkCallbackResult (NextErr err) store sid None []
  | AuthFailure _ => mkCallbackResult (Reply (Redirect "/api/login")) store sid None []
  | AuthSuccess user =>
      let store1 := regenerated_store a store sid in
      match regenerate a with
      | Err sessionErr =>
          mkCallbackResult (NextErr sessionErr) store1 (Some (new_sid a)) None
            [OpRegenerate]
      | Ok _ =>
          match logIn a with
          | Err loginErr =>
              mkCallbackResult (NextErr loginErr) store1 (Some (new_sid a)) None
                [OpRegenerate; OpLogIn]
          | Ok _ =>
              (* req.session.save(() => { res.redirect("/") }) *)
              mkCallbackResult (Reply (Redirect "/"))
                (saved_store a store1 user) (Some (new_sid a)) (Some user)
                [OpRegenerate; OpLogIn; OpSave]
          end
      end
  end.

Definition isAuthenticated := Session.isAuthenticated updateUserSession.
Definition gated_request := Session.gated_request updateUserSession.
Definition gated_requests := Session.gated_requests updateUserSession.

End ReplitAuth.

(** ** server/googleAuth.ts *)

Module GoogleAuth.
Import Session Passport.

(** The token set of the provider client; [claims] is [None] when
    [tokens.claims] is not a function, else the claims it returns. *)
Module Tokens.
Record t : Type := mk {
  claims : option Claims;
  access_token : string;
  refresh_token : option string
}.
End Tokens.

(** Without a [claims] function the tuple gets the empty object, which has
    no [exp]: the expiry read through [user.claims?.exp] is undefined, as it
    is for undefined claims. *)
Definition updateUserSession (user : SessionUser) (tokens : Tokens.t) : SessionUser :=
  let claims := Tokens.claims tokens in
  {| claims := claims;
     access_token := Some (Tokens.access_token tokens);
     refresh_token := Tokens.refresh_token tokens;
     expires_at := exp <$> claims |}.

Definition upsertUser {S : Type} `{IStorage.t S} (now : Z) (uuid : string) (st : S)
    (claims : Claims) : Result (User.t * S) :=
  IStorage.upsertUser now uuid st
    {| UpsertUser.id := Some (sub claims);
       UpsertUser.email := claim claims "email";
       UpsertUser.firstName := claim claims "given_name";
       UpsertUser.lastName := claim claims "family_name";
       UpsertUser.profileImageUrl := claim claims "picture";
       UpsertUser.role := None;
       UpsertUser.phone := Undefined;
       UpsertUser.bio := Undefined |}.

(** [GOOGLE_CALLBACK_URL] is [process.env.GOOGLE_CALLBACK_URL]. *)
Definition google_strategy (GOOGLE_CALLBACK_URL : option string) : Strategy :=
  {| name := "google";
     scope := "openid email profile";
     callbackURL := default "" GOOGLE_CALLBACK_URL |}.

(** The strategies [setupAuth] leaves registered. *)
Definition setupAuth (GOOGLE_CALLBACK_URL : option string) : gmap string Strategy :=
  passport_use (google_strategy GOOGLE_CALLBACK_URL) ∅.

(** [app.get("/api/callback", ...)] *)
Definition callback (auth : Authentication) (a : SessionAnswers)
    (store : gmap string SessionUser) (sid : option string) : CallbackResult :=
  match auth with
  | AuthError err => mkCallbackResult (NextErr err) store sid None []
  | AuthFailure _ => mkCallbackResult (Reply (Redirect "/api/login")) store sid None []
  | AuthSuccess user =>
      let store1 := regenerated_store a store sid in
      match regenerate a with
      | Err sessionErr =>
          mkCallbackResult (NextErr sessionErr) store1 (Some (new_sid a)) None
            [OpRegenerate]
      | Ok _ =>
          match logIn a with
          | Err loginErr =>
              mkCallbackResult (NextErr loginErr) store1 (Some (new_sid a)) None
                [OpRegenerate; OpLogIn]
          | Ok _ =>
              match save a with
              | Err saveErr =>
                  mkCallbackResult (NextErr saveErr) store1 (Some (new_sid a))
                    (Some user) [OpRegenerate; OpLogIn; OpSave]
              | Ok _ =>
                  mkCallbackResult (Reply (Redirect "/"))
                    (saved_store a store1 user) (Some (new_sid a)) (Some user)
                    [OpRegenerate; OpLogIn; OpSave]
              end
          end
      end
  end.

Definition isAuthenticated := Session.isAuthenticated updateUserSession.

End GoogleAuth.

(** ** server/middleware.ts *)

Module Middleware.
Import Session.

(** [a || b] on strings: [b] when [a] is undefined or empty. *)
Definition or_else (a : option string) (b : string) : string :=
  if truthy_str a then default b a else b.

Definition forbidden (allowedRoles : list string) (userRole : string) : Response :=
  SendJson 403 [("message", JString "Insufficient permissions");
                ("required", JStrings allowedRoles);
                ("current", JString userRole)].

Definition check_failed : Response :=
  SendJson 500 [("message", JString "Authorization check failed")].

(** [requireRole(allowedRoles)] applied to a request: [user] is [req.user],
    [st] the storage the lookup reads. *)
Definition requireRole {S : Type} `{IStorage.t S} (allowedRoles : list string)
    (P : Provider ReplitAuth.Tokens.t) (clock_ms : Z) (st : S)
    (user : option SessionUser) : GateResult :=
  (* First ensure user is authenticated *)
  let gate := ReplitAuth.isAuthenticated P clock_ms user in
  match flow gate with
  | Next =>
      let answer (f : Flow) :=
        mkGateResult f (user_after gate) (provider_calls gate) in
      (* try: req.user.claims.sub throws when the claims are undefined *)
      match user_after gate ≫= claims with
      | None => answer (Reply check_failed)
      | Some c =>
          let userId := sub c in
          match IStorage.getUser st userId with
          | Err _ => answer (Reply check_failed)
          | Ok dbUser =>
              let userRole := or_else (role_name ∘ User.role <$> dbUser) "buyer" in
              if negb (includes allowedRoles userRole)
              then answer (Reply (forbidden allowedRoles userRole))
              else answer Next
          end
      end
  | _ => gate
  end.

Definition requireAgent {S : Type} `{IStorage.t S} := requireRole (S := S) ["agent"].
Definition requireSeller {S : Type} `{IStorage.t S} := requireRole (S := S) ["seller"; "agent"].
Definition requireAdmin {S : Type} `{IStorage.t S} := requireRole (S := S) ["admin"].

End Middleware.

(** ** server/routes.ts *)

Module Routes.
Import Session.

(** A value of the request body as the handler tells values apart: null, a
    string, or anything else (number, boolean, array, nested object). *)
Inductive JsVal : Type :=
| VNull
| VString (s : string)
| VOther.

(** [req.body]: falsy, a truthy value whose [typeof] is not ['object'], or an
    object (an array is an object whose keys are its indices). *)
Inductive Body : Type :=
| BodyFalsy
| BodyPrimitive
| BodyObject (fields : gmap string JsVal).

Definition allowedFields : list string := ["phone"; "bio"].

(** The reducer keeps a value that is a string or null. *)
Definition basic_validation (v : JsVal) : option (Col string) :=
  match v with
  | VString s => Some (Val s)
  | VNull => Some Null
  | VOther => None
  end.

Definition filteredUpdates (updates : gmap string JsVal) : gmap string (Col string) :=
  omap basic_validation (filter (λ kv, kv.1 ∈ allowedFields) updates).

(** A key of the object spread into the upsert: absent keys are undefined. *)
Definition spread (obj : gmap string (Col string)) (key : string) : Col string :=
  default Undefined (obj !! key).

Definition json_opt_string (s : option string) : JsonValue :=
  match s with
  | Some s => JString s
  | None => JNull
  end.

Definition json_opt_num (n : option Z) : JsonValue :=
  match n with
  | Some n => JNum n
  | None => JNull
  end.

Definition user_json (u : User.t) : Json :=
  [("id", JString (User.id u));
   ("email", json_opt_string (User.email u));
   ("firstName", json_opt_string (User.firstName u));
   ("lastName", json_opt_string (User.lastName u));
   ("profileImageUrl", json_opt_string (User.profileImageUrl u));
   ("role", JString (role_name (User.role u)));
   ("phone", json_opt_string (User.phone u));
   ("bio", json_opt_string (User.bio u));
   ("createdAt", json_opt_num (User.createdAt u));
   ("updatedAt", json_opt_num (User.updatedAt u))].

Definition message (status : Z) (text : string) : Response :=
  SendJson status [("message", JString text)].

(** The handler of [app.patch('/api/auth/user', isAuthenticated, ...)], run
    once the gate has passed the request on; [user] is [req.user]. *)
Definition patch_auth_user {S : Type} `{IStorage.t S} (now : Z) (uuid : string)
    (st : S) (user : SessionUser) (body : Body) : Response * S :=
  (* try: req.user.claims.sub throws when the claims are undefined *)
  match claims user with
  | None => (message 500 "Failed to update user", st)
  | Some c =>
      let userId := sub c in
      match body with
      | BodyFalsy | BodyPrimitive => (message 400 "Invalid input data", st)
      | BodyObject updates =>
          let filtered := filteredUpdates updates in
          if bool_decide (size filtered = 0%nat)
          then (message 400 "No valid fields to update", st)
          else
            match IStorage.upsertUser now uuid st
                    {| UpsertUser.id := Some userId;
                       UpsertUser.email := Undefined;
                       UpsertUser.firstName := Undefined;
                       UpsertUser.lastName := Undefined;
                       UpsertUser.profileImageUrl := Undefined;
                       UpsertUser.role := None;
                       UpsertUser.phone := spread filtered "phone";
                       UpsertUser.bio := spread filtered "bio" |} with
            | Ok (updatedUser, st') => (SendJson 200 (user_json updatedUser), st')
            | Err _ => (message 500 "Failed to update user", st)
            end
      end
  end.

(** The route: the gate, then the handler. *)
Definition route_patch_auth_user {S : Type} `{IStorage.t S}
    (P : Provider ReplitAuth.Tokens.t) (clock_ms : Z) (now : Z) (uuid : string)
    (st : S) (user : option SessionUser) (body : Body) : Flow * S :=
  let gate := ReplitAuth.isAuthenticated P clock_ms user in
  match flow gate, user_after gate with
  | Next, Some u =>
      let '(response, st') := patch_auth_user now uuid st u body in
      (Reply response, st')
  | f, _ => (f, st)
  end.

End Routes.

(** ** More of server/replitAuth.ts: login entry point and verify *)

Module ReplitLogin.
Import Session Passport.

(** [s.includes(needle)] on strings. *)
Fixpoint str_includes (s needle : string) : bool :=
  String.prefix needle s
  || match s with
     | EmptyString => false
     | String _ rest => str_includes rest needle
     end.

Fixpoint drop_chars (n : nat) (s : string) : string :=
  match n, s with
  | O, _ => s
  | S n', String _ rest => drop_chars n' rest
  | S _, EmptyString => EmptyString
  end.

(** [s.replace(pattern, replacement)] for a string pattern: the first
    occurrence only. *)
Fixpoint replace_first (pattern replacement s : string) : string :=
  if String.prefix pattern s
  then replacement ++ drop_chars (String.length pattern) s
  else match s with
       | EmptyString => EmptyString
       | String c rest => String c (replace_first pattern replacement rest)
       end.

(** The name of the strategy that [app.get("/api/login", ...)] hands to
    [passport.authenticate], from [req.hostname]. *)
Definition login_strategy (env : ReplitAuth.Env) (req_hostname : string) : string :=
  (* Normalize hostnames and provide fallback for testing *)
  let hostname := if String.eqb req_hostname "::1" then "127.0.0.1" else req_hostname in
  let possibleStrategies :=
    ["replitauth:" ++ hostname; "replitauth:localhost"; "replitauth:127.0.0.1"] in
  let strategyName := "replitauth:" ++ hostname in
  let domains := split ","%char (ReplitAuth.REPLIT_DOMAINS env) in
  if negb (ReplitAuth.is_production env) && negb (includes domains hostname)
  then
    Middleware.or_else
      (List.find
         (λ name,
            includes domains (replace_first "replitauth:" "" name)
            || str_includes name "localhost"
            || str_includes name "127.0.0.1")
         possibleStrategies)
      "replitauth:localhost"
  else strategyName.

(** The name that [app.get("/api/callback", ...)] hands to
    [passport.authenticate]: no normalization, no fallback. *)
Definition callback_strategy (req_hostname : string) : string :=
  "replitauth:" ++ req_hostname.

(** The [verify] function of the strategies: the session tuple of a fresh
    login, and the upsert of the user.  [upsertUser(tokens.claims())] throws
    on undefined claims. *)
Definition verify {S : Type} `{IStorage.t S} (now : Z) (uuid : string) (st : S)
    (tokens : ReplitAuth.Tokens.t) : Result (SessionUser * S) :=
  let user := ReplitAuth.updateUserSession empty_user tokens in
  match ReplitAuth.Tokens.claims tokens with
  | None => Err "TypeError: Cannot read properties of undefined (reading 'sub')"
  | Some c =>
      match ReplitAuth.upsertUser now uuid st c with
      | Ok (_, st') => Ok (user, st')
      | Err e => Err e
      end
  end.

End ReplitLogin.

(** ** More of server/storage.ts: the messages table *)

(** A row of the [messages] table. *)
Module Message.
Record t : Type := mk {
  id : string;
  propertyId : option string;
  senderId : string;
  recipientId : string;
  subject : option string;
  message : string;
  inquiryType : option string;
  isRead : option bool;
  createdAt : option Z
}.
End Message.

Module MessageStorage.




End MessageStorage.

(** ** More of server/routes.ts *)

Module MoreRoutes.
Import Session Routes.

(** What the handlers below send. *)
Inductive Answer : Type :=
| Sent (r : Response)
| SentInvalid (message : string) (errors : list string)
    (* res.status(400).json({ message, errors }): [errors] names the keys
       the validator objects to *)
| SentFavorite (status : Z) (f : Favorite.t)   (* res.status(s).json(favorite) *)
| SentIsFavorite (isFavorite : bool)           (* res.json({ isFavorite }) *)
| SentMessages (ms : list Message.t)           (* res.json(messages) *)
| SentSuccess                                  (* res.json({ success: true }) *)
| SentEmpty (status : Z).                      (* res.status(s).send() *)

(** [app.get('/api/auth/user', isAuthenticated, ...)], past the gate. *)
Definition get_auth_user {S : Type} `{IStorage.t S} (st : S) (user : SessionUser)
    : Response :=
  match claims user with
  | None => message 500 "Failed to fetch user"
  | Some c =>
      let userId := sub c in
      match IStorage.getUser st userId with
      | Ok (Some u) => SendJson 200 (user_json u)
      | Ok None => message 404 "User not found"
      | Err _ => message 500 "Failed to fetch user"
      end
  end.

(** [insertFavoriteSchema.safeParse(req.body)]: the schema is an object with
    the two required string keys [userId] and [propertyId]; other keys are
    stripped.  On failure the keys at fault are listed. *)
Definition string_key (fields : gmap string JsVal) (key : string) : option string :=
  match fields !! key with
  | Some (VString s) => Some s
  | _ => None
  end.

Definition safeParse (body : Body) : InsertFavorite.t + list string :=
  match body with
  | BodyObject fields =>
      match string_key fields "userId", string_key fields "propertyId" with
      | Some u, Some p =>
          inl {| InsertFavorite.userId := u; InsertFavorite.propertyId := p |}
      | None, Some _ => inr ["userId"]
      | Some _, None => inr ["propertyId"]
      | None, None => inr ["userId"; "propertyId"]
      end
  | _ => inr [""]
  end.

(** [app.post('/api/favorites', isAuthenticated, ...)], past the gate. *)
Definition post_favorite {S : Type} `{IStorage.t S} (now : Z) (uuid : string)
    (st : S) (user : SessionUser) (body : Body) : Answer * S :=
  match claims user with
  | None => (Sent (message 500 "Failed to add favorite"), st)
  | Some c =>
      let userId := sub c in
      match safeParse body with
      | inr errors => (SentInvalid "Invalid favorite data" errors, st)
      | inl data =>
          let favoriteData :=
            {| InsertFavorite.userId := userId;
               InsertFavorite.propertyId := InsertFavorite.propertyId data |} in
          match IStorage.addFavorite now uuid st favoriteData with
          | Ok (favorite, st') => (SentFavorite 201 favorite, st')
          | Err _ => (Sent (message 500 "Failed to add favorite"), st)
          end
      end
  end.

(** [app.delete('/api/favorites/:propertyId', isAuthenticated, ...)] *)
Definition delete_favorite {S : Type} `{IStorage.t S} (st : S) (user : SessionUser)
    (propertyId : string) : Answer * S :=
  match claims user with
  | None => (Sent (message 500 "Failed to remove favorite"), st)
  | Some c =>
      let userId := sub c in
      match IStorage.removeFavorite st userId propertyId with
      | Ok (removed, st') =>
          if negb removed
          then (Sent (message 404 "Favorite not found"), st')
          else (SentEmpty 204, st')
      | Err _ => (Sent (message 500 "Failed to remove favorite"), st)
      end
  end.

(** [app.get('/api/favorites/check/:propertyId', isAuthenticated, ...)] *)
Definition check_favorite {S : Type} `{IStorage.t S} (st : S) (user : SessionUser)
    (propertyId : string) : Answer :=
  match claims user with
  | None => Sent (message 500 "Failed to check favorite status")
  | Some c =>
      let userId := sub c in
      match IStorage.getFavorite st userId propertyId with
      | Ok favorite => SentIsFavorite (bool_decide (is_Some favorite))
      | Err _ => Sent (message 500 "Failed to check favorite status")
      end
  end.


(** [app.get('/api/messages/property/:propertyId', isAuthenticated, ...)]:
    [agentId] is the [agentId] of the property that [getProperty] returns
    ([None]: no such property), [messages] the rows that
    [getMessagesByProperty] returns, in the order the database gives them. *)
Definition get_property_messages (user : SessionUser) (agentId : option string)
    (messages : list Message.t) : Answer :=
  match claims user with
  | None => Sent (message 500 "Failed to fetch property messages")
  | Some c =>
      let userId := sub c in
      match agentId with
      | None => Sent (message 404 "Property not found")
      | Some owner =>
          (* Only allow property owner or involved users to see messages *)
          let userMessages :=
            List.filter
              (λ msg, String.eqb (Message.senderId msg) userId
                      || String.eqb (Message.recipientId msg) userId
                      || String.eqb owner userId)
              messages in
          SentMessages userMessages
      end
  end.

End MoreRoutes.

(** ** Concrete sessions, providers and requests *)

Module Examples.
Import Session Passport.

Definition claims_of (subject : string) (expiry : Z) : Claims :=
  {| sub := subject; exp := expiry; extra := ∅ |}.

(** A session tuple of [subject] with the given expiry and refresh token. *)
Definition session_for (subject : string) (expiry : option Z)
    (token : option string) : SessionUser :=
  {| claims := Some (claims_of subject (default 0 expiry));
     access_token := Some "at-1";
     refresh_token := token;
     expires_at := expiry |}.

Definition session_of : option Z → option string → SessionUser :=
  session_for "u1".

(** A token response with fresh claims expiring at [expiry]. *)
Definition fresh_tokens (expiry : Z) : ReplitAuth.Tokens.t :=
  {| ReplitAuth.Tokens.claims := Some (claims_of "u1" expiry);
     ReplitAuth.Tokens.access_token := "at-2";
     ReplitAuth.Tokens.refresh_token := Some "rt-2" |}.

(** A token response without an ID token. *)
Definition tokens_without_claims : ReplitAuth.Tokens.t :=
  {| ReplitAuth.Tokens.claims := None;
     ReplitAuth.Tokens.access_token := "at-2";
     ReplitAuth.Tokens.refresh_token := Some "rt-2" |}.

(** A provider that answers every refresh grant with [tokens]. *)
Definition accepting (tokens : ReplitAuth.Tokens.t) : Provider ReplitAuth.Tokens.t :=
  {| getOidcConfig := true; refreshTokenGrant := λ _, Some tokens |}.

(** A provider whose token endpoint rejects every refresh grant. *)
Definition rejecting : Provider ReplitAuth.Tokens.t :=
  {| getOidcConfig := true; refreshTokenGrant := λ _, None |}.

(** The record of an agent with subject [u1]. *)
Definition agent_u1 : User.t :=
  {| User.id := "u1";
     User.email := Some "ann@example.com";
     User.firstName := Some "Ann";
     User.lastName := Some "Lee";
     User.profileImageUrl := None;
     User.role := agent;
     User.phone := Some "555-0100";
     User.bio := None;
     User.createdAt := Some 1;
     User.updatedAt := Some 1 |}.

Definition buyer_u2 : User.t :=
  {| User.id := "u2";
     User.email := Some "bob@example.com";
     User.firstName := Some "Bob";
     User.lastName := None;
     User.profileImageUrl := None;
     User.role := buyer;
     User.phone := None;
     User.bio := None;
     User.createdAt := Some 2;
     User.updatedAt := Some 2 |}.

Definition favorite_1 : Favorite.t :=
  {| Favorite.id := "f1";
     Favorite.userId := "u2";
     Favorite.propertyId := "p1";
     Favorite.createdAt := Some 3 |}.

Definition db_1 : Storage.Db :=
  {| Storage.users := {[ "u1" := agent_u1; "u2" := buyer_u2 ]};
     Storage.properties := {[ "p1"; "p2" ]};
     Storage.favorites := [favorite_1] |}.

(** Claims of subject [u1] that also carry a [role] claim. *)
Definition claims_with_role : Claims :=
  {| sub := "u1";
     exp := 3600;
     extra := {[ "email" := "ann@new.example";
                 "first_name" := "Anna";
                 "given_name" := "Anna";
                 "role" := "admin" ]} |}.

(** The session layer answers: the store fails to save the session. *)
Definition save_fails : SessionAnswers :=
  {| new_sid := "sid-1";
     regenerate := Ok ();
     logIn := Ok ();
     save := Err "session store unavailable" |}.

Definition all_succeed : SessionAnswers :=
  {| new_sid := "sid-1"; regenerate := Ok (); logIn := Ok (); save := Ok () |}.

(** The body [{"role":"admin","bio":"hi"}]. *)
Definition body_role_and_bio : gmap string Routes.JsVal :=
  {[ "role" := Routes.VString "admin"; "bio" := Routes.VString "hi" ]}.

(** A production deployment on two domains. *)
Definition two_domains : ReplitAuth.Env :=
  {| ReplitAuth.REPLIT_DOMAINS := "a.example,b.example";
     ReplitAuth.NODE_ENV := Some "production" |}.

Definition store_of (sid : string) (u : SessionUser) : gmap string SessionUser :=
  {[ sid := u ]}.

End Examples.

(** ** Statements shared by the two integrations *)

Module Statements.
Import Session Storage.

(** Every user of [db] is still in [db'], with the role it had. *)
Definition roles_kept (db db' : Db) : Prop :=
  ∀ id u, users db !! id = Some u →
    ∃ u', users db' !! id = Some u' ∧ User.role u' = User.role u.

(** What an upsert driven by [claims] does to a database that holds the
    record [u] of the subject: it fails on an email that another user holds,
    and writes nothing; otherwise the record of the subject gets the claims
    that are present in its profile columns, keeps the columns of absent
    claims, and keeps its role, as does every other record.  The three names
    are the claims read for first name, last name and picture. *)
Definition claims_upsert_spec (first_name last_name picture : string)
    (db : Db) (claims : Claims) (u : User.t)
    (result : Result (User.t * Db)) : Prop :=
  match result with
  | Err _ => email_taken (users db) (sub claims) (claim claims "email") = true
  | Ok (row, db') =>
      email_taken (users db) (sub claims) (claim claims "email") = false
      ∧ users db' !! sub claims = Some row
      ∧ User.role row = User.role u
      ∧ User.email row = col_set (claim claims "email") (User.email u)
      ∧ User.firstName row = col_set (claim claims first_name) (User.firstName u)
      ∧ User.lastName row = col_set (claim claims last_name) (User.lastName u)
      ∧ User.profileImageUrl row
        = col_set (claim claims picture) (User.profileImageUrl u)
      ∧ User.phone row = User.phone u
      ∧ User.bio row = User.bio u
      ∧ roles_kept db db'
  end.

(** *** The favorites table *)

Definition pair_of (f : Favorite.t) : string * string :=
  (Favorite.userId f, Favorite.propertyId f).

(** [uniqueUserProperty]: at most one favorite for a user and a property. *)
Definition unique_pairs (fs : list Favorite.t) : Prop :=
  NoDup (pair_of <$> fs).

(** A call of one of the two operations that change the favorites. *)
Inductive FavoriteCall : Type :=
| CallAdd (now : Z) (uuid : string) (ins : InsertFavorite.t)
| CallRemove (userId propertyId : string).

(** The database after a call; a call that throws changes nothing. *)
Definition after_call (db : Db) (call : FavoriteCall) : Db :=
  match call with
  | CallAdd now uuid ins =>
      match Storage.addFavorite now uuid db ins with
      | Ok (_, db') => db'
      | Err _ => db
      end
  | CallRemove userId propertyId =>
      match Storage.removeFavorite db userId propertyId with
      | Ok (_, db') => db'
      | Err _ => db
      end
  end.

Definition after_calls (db : Db) (calls : list FavoriteCall) : Db :=
  foldl after_call db calls.

End Statements.

(** ** Chains of middleware and the invariants of the tables *)

Module MoreStatements.
Import Session Storage Statements.

(** A route registered as [app.post(path, isAuthenticated, requireRole(...),
    handler)]: the gate runs, and when it passes the request on,
    [requireRole] runs the gate again on the tuple the first run left.  The
    provider calls of both runs are collected. *)
Definition isAuthenticated_then_requireRole {S : Type} `{IStorage.t S}
    (allowedRoles : list string) (P : Provider ReplitAuth.Tokens.t)
    (clock_ms : Z) (st : S) (user : option SessionUser) : GateResult :=
  let first := ReplitAuth.isAuthenticated P clock_ms user in
  match flow first with
  | Next =>
      let second :=
        Middleware.requireRole allowedRoles P clock_ms st (user_after first) in
      mkGateResult (flow second) (user_after second)
        (provider_calls first ++ provider_calls second)
  | _ => first
  end.

(** [users_email_unique]: no two rows hold the same email. *)
Definition unique_emails (us : gmap string User.t) : Prop :=
  ∀ k1 k2 u1 u2 e,
    us !! k1 = Some u1 → us !! k2 = Some u2 →
    User.email u1 = Some e → User.email u2 = Some e → k1 = k2.

(** The users table is indexed by the primary key: every row is stored
    under its own id. *)
Definition keyed_by_id (us : gmap string User.t) : Prop :=
  ∀ k u, us !! k = Some u → User.id u = k.

(** The primary key of [favorites]: no two rows hold the same id. *)
Definition unique_ids (fs : list Favorite.t) : Prop :=
  NoDup (Favorite.id <$> fs).

End MoreStatements.

Module MoreExamples.
Import Session.

(** A token response whose claims carry an email and a first name. *)
Definition login_tokens : ReplitAuth.Tokens.t :=
  {| ReplitAuth.Tokens.claims :=
       Some {| sub := "u9"; exp := 3600;
               extra := {[ "email" := "zoe@example.com"; "first_name" := "Zoe" ]} |};
     ReplitAuth.Tokens.access_token := "at-9";
     ReplitAuth.Tokens.refresh_token := Some "rt-9" |}.

(** A token response with fresh claims and no refresh token. *)
Definition tokens_without_refresh_token : ReplitAuth.Tokens.t :=
  {| ReplitAuth.Tokens.claims := Some (Examples.claims_of "u1" 3600);
     ReplitAuth.Tokens.access_token := "at-2";
     ReplitAuth.Tokens.refresh_token := None |}.

(** A development deployment on one domain. *)
Definition dev_one_domain : ReplitAuth.Env :=
  {| ReplitAuth.REPLIT_DOMAINS := "a.example";
     ReplitAuth.NODE_ENV := Some "development" |}.

(** A database with one user, one property and no favorite. *)
Definition db_one_user : Storage.Db :=
  {| Storage.users := {[ "u1" := Examples.agent_u1 ]};
     Storage.properties := {[ "p1" ]};
     Storage.favorites := [] |}.

Definition message_1 : Message.t :=
  {| Message.id := "m1";
     Message.propertyId := Some "p1";
     Message.senderId := "u2";
     Message.recipientId := "u1";
     Message.subject := Some "Viewing";
     Message.message := "Is the house still available?";
     Message.inquiryType := Some "general";
     Message.isRead := Some false;
     Message.createdAt := Some 5 |}.

Definition message_2 : Message.t :=
  {| Message.id := "m2";
     Message.propertyId := Some "p1";
     Message.senderId := "u3";
     Message.recipientId := "u1";
     Message.subject := None;
     Message.message := "Price?";
     Message.inquiryType := Some "general";
     Message.isRead := Some false;
     Message.createdAt := Some 6 |}.


(** The body [{"userId":"u1","propertyId":"p2"}]. *)
Definition favorite_body (userId propertyId : string) : gmap string Routes.JsVal :=
  {[ "userId" := Routes.VString userId; "propertyId" := Routes.VString propertyId ]}.

End MoreExamples.

(** * Properties *)

Lemma includes_elem_of (xs : list string) (x : string) :
  includes xs x = true ↔ x ∈ xs.
Proof.
  unfold includes. rewrite existsb_exists. split.
  - intros (y & Hin & Heq). apply String.eqb_eq in Heq. subst y.
    by apply list_elem_of_In.
  - intros Hin. exists x. split; [by apply list_elem_of_In | apply String.eqb_refl].
Qed.

(** ** The authentication gate *)

Module GateFacts.
Import Session.

Section WithIntegration.

Context {Tokens : Type}.
Variable updateUserSession : SessionUser → Tokens → SessionUser.

Local Abbreviation gate := (isAuthenticated updateUserSession).

(** The gate has two answers only. *)
Lemma gate_flow (P : Provider Tokens) (clock_ms : Z) (user : option SessionUser) :
  flow (gate P clock_ms user) = Next
  ∨ flow (gate P clock_ms user) = Reply unauthorized.
Proof.
  unfold isAuthenticated.
  repeat (case_match; simpl; auto).
Qed.

(** A rejection leaves the tuple as it was. *)
Lemma gate_reject_keeps_user (P : Provider Tokens) (clock_ms : Z)
    (user : option SessionUser) :
  flow (gate P clock_ms user) = Reply unauthorized →
  user_after (gate P clock_ms user) = user.
Proof.
  unfold isAuthenticated.
  repeat (case_match; simpl; auto); discriminate.
Qed.

(** The gate rejects exactly under the conditions of [rejected]. *)
Lemma gate_rejects_iff (P : Provider Tokens) (clock_ms : Z)
    (user : option SessionUser) :
  flow (gate P clock_ms user) = Reply unauthorized
  ↔ rejected P (clock_ms / 1000) user.
Proof.
  unfold isAuthenticated. destruct user as [u|]; simpl.
  2: { split; [constructor | done]. }
  destruct (expires_at u) as [e|] eqn:He; simpl.
  2: { split; [intros _; by apply rejected_expiry_falsy; rewrite He | done]. }
  destruct (Z.eqb_spec e 0) as [->|Hne]; simpl.
  { split; [intros _; by apply rejected_expiry_falsy; rewrite He | done]. }
  destruct (Z.leb_spec (clock_ms / 1000) e) as [Hle|Hlt]; simpl.
  { split; [done |].
    inversion 1 as [ | u' Hf | u' e' He' Hlt' _ | u' e' t He' Hlt' _ _ _ ]; subst.
    - rewrite He in Hf. simpl in Hf. apply negb_false_iff, Z.eqb_eq in Hf. done.
    - rewrite He in He'. injection He' as <-. lia.
    - rewrite He in He'. injection He' as <-. lia. }
  destruct (refresh_token u) as [token|] eqn:Hrt; simpl.
  2: { split; [intros _; eapply rejected_expired_no_refresh; eauto;
               by rewrite Hrt | done]. }
  destruct (String.eqb_spec token "") as [->|Htok]; simpl.
  { split; [intros _; eapply rejected_expired_no_refresh; eauto;
            by rewrite Hrt | done]. }
  assert (Hcases : ∀ Q : Prop,
    (Q ↔ refresh_fails P token) → (Q ↔ rejected P (clock_ms / 1000) (Some u))).
  { intros Q HQ. rewrite HQ. split.
    - intros Hf. eapply rejected_refresh_failed; eauto.
    - inversion 1 as [ | u' Hf | u' e' He' _ Hno | u' e' t He' _ Ht _ Hf ]; subst.
      + rewrite He in Hf. simpl in Hf. apply negb_false_iff, Z.eqb_eq in Hf. done.
      + rewrite Hrt in Hno. simpl in Hno.
        apply negb_false_iff, String.eqb_eq in Hno. done.
      + rewrite Hrt in Ht. by injection Ht as <-. }
  apply Hcases. unfold refresh_fails.
  destruct (getOidcConfig P); simpl.
  - destruct (refreshTokenGrant P token); simpl; split;
      [done | intros [?|?]; done | auto | done].
  - split; auto.
Qed.

(** With an expiry that is set and not in the past the gate passes the
    request on and touches nothing. *)
Lemma gate_valid_passes (P : Provider Tokens) (clock_ms : Z) (u : SessionUser) (e : Z) :
  expires_at u = Some e → e ≠ 0 → clock_ms / 1000 ≤ e →
  gate P clock_ms (Some u) = mkGateResult Next (Some u) [].
Proof.
  intros He Hne Hle. unfold isAuthenticated. simpl. rewrite He. simpl.
  destruct (Z.eqb_spec e 0); [done |]. simpl.
  destruct (Z.leb_spec (clock_ms / 1000) e); [done | lia].
Qed.

(** An expired tuple with a refresh token: the outcome of the try block
    decides. *)
Lemma gate_expired_refresh (P : Provider Tokens) (clock_ms : Z) (u : SessionUser)
    (e : Z) (token : string) :
  expires_at u = Some e → e ≠ 0 → e < clock_ms / 1000 →
  refresh_token u = Some token → token ≠ "" →
  gate P clock_ms (Some u) =
    if getOidcConfig P
    then match refreshTokenGrant P token with
         | Some tokenResponse =>
             mkGateResult Next (Some (updateUserSession u tokenResponse))
               [RefreshCall token]
         | None => mkGateResult (Reply unauthorized) (Some u) [RefreshCall token]
         end
    else mkGateResult (Reply unauthorized) (Some u) [].
Proof.
  intros He Hne Hlt Hrt Htok. unfold isAuthenticated. simpl.
  rewrite He, Hrt. simpl.
  destruct (Z.eqb_spec e 0); [done |]. simpl.
  destruct (Z.leb_spec (clock_ms / 1000) e); [lia |]. simpl.
  destruct (String.eqb_spec token ""); [done |]. simpl.
  destruct (getOidcConfig P); [| done].
  by destruct (refreshTokenGrant P token).
Qed.

End WithIntegration.

End GateFacts.

(** ** The gate in front of the session store *)

Module StoreFacts.
Import Session.

Section WithIntegration.

Context {Tokens : Type}.
Variable updateUserSession : SessionUser → Tokens → SessionUser.

Lemma save_session_same (store : gmap string SessionUser) (sid : string)
    (u : SessionUser) :
  store !! sid = Some u → save_session store (Some sid) (Some u) = store.
Proof. intros Hu. simpl. by apply insert_id. Qed.

(** A rejected request leaves the whole store as it was. *)
Lemma gated_request_rejected (P : Provider Tokens) (store : gmap string SessionUser)
    (sid : option string) (clock_ms : Z) :
  flow (gated_request updateUserSession P store sid clock_ms).1 = Reply unauthorized →
  (gated_request updateUserSession P store sid clock_ms).2 = store.
Proof.
  unfold gated_request. simpl. intros Hflow.
  rewrite (GateFacts.gate_reject_keeps_user _ _ _ _ Hflow).
  destruct sid as [s|]; [| done]. simpl.
  destruct (store !! s) as [u|] eqn:Hu; [| done].
  by apply insert_id.
Qed.

(** A run of requests that are all rejected: every answer is 401 and the
    store is the one the run started from. *)
Lemma gated_requests_all_rejected (P : Provider Tokens)
    (store : gmap string SessionUser) (sid : option string) (clocks : list Z) :
  Forall (λ t, rejected P (t / 1000) (req_user store sid)) clocks →
  gated_requests updateUserSession P store sid clocks
  = (replicate (length clocks) (Reply unauthorized), store).
Proof.
  induction clocks as [|t rest IH]; intros Hall; [done |].
  apply Forall_cons in Hall as [Ht Hrest].
  apply (GateFacts.gate_rejects_iff updateUserSession) in Ht.
  cbn [gated_requests].
  pose proof (gated_request_rejected P store sid t) as Hsame.
  destruct (gated_request updateUserSession P store sid t) as [r store'] eqn:Hreq.
  assert (Hflow : flow r = Reply unauthorized).
  { unfold gated_request in Hreq. by injection Hreq as <- _. }
  simpl in Hsame. rewrite (Hsame Hflow), (IH Hrest). simpl. by rewrite Hflow.
Qed.

End WithIntegration.

End StoreFacts.

Import Session.

(** The expiry of a session tuple is the [exp] claim of a validated ID
    token, written by [updateUserSession] and by nothing else: it is missing
    or a time after the epoch, never the number zero.  On such tuples the
    test [!user.expires_at] of the gate holds exactly for a missing
    expiry. *)
Lemma rejected_as_stated_iff {Tokens : Type} (P : Provider Tokens) (now : Z)
    (user : option SessionUser) :
  (∀ u, user = Some u → expires_at u ≠ Some 0) →
  rejected P now user ↔ rejected_as_stated P now user.
Proof.
  intros Hnonzero. split.
  - inversion 1 as [ | u Hfalsy | u e He Hlt Hno | u e t He Hlt Ht Hne Hf ]; subst.
    + constructor.
    + apply stated_expiry_missing.
      destruct (expires_at u) as [e|] eqn:He; [| done]. simpl in Hfalsy.
      apply negb_false_iff, Z.eqb_eq in Hfalsy. subst e.
      by destruct (Hnonzero u eq_refl).
    + by eapply stated_expired_no_refresh.
    + by eapply stated_refresh_failed.
  - inversion 1 as [ | u Hmiss | u e He Hlt Hno | u e t He Hlt Ht Hne Hf ]; subst.
    + constructor.
    + apply rejected_expiry_falsy. by rewrite Hmiss.
    + by eapply rejected_expired_no_refresh.
    + by eapply rejected_refresh_failed.
Qed.

(** [C1] (as amended) For every request with a session tuple as the
    integrations write it (an expiry, when set, is not the number zero), the
    gate answers 401 with the body [{message: "Unauthorized"}] if and only
    if there is no session user, or the expiry of the session user is
    missing, or the expiry is in the past and there is no refresh token, or a
    refresh was attempted and failed.  In every other case the request goes
    to the next stage: untouched, and without a provider call, whenever the
    expiry is not in the past; with the session tuple overwritten from the
    token response when the expiry is in the past and the refresh
    succeeded.  This holds for both integrations. *)
Theorem gate_contract {Tokens : Type}
    (updateUserSession : SessionUser → Tokens → SessionUser)
    (P : Provider Tokens) (clock_ms : Z) (user : option SessionUser) :
  (∀ u, user = Some u → expires_at u ≠ Some 0) →
  let r := isAuthenticated updateUserSession P clock_ms user in
  (flow r = Reply unauthorized ↔ rejected_as_stated P (clock_ms / 1000) user)
  ∧ (¬ rejected_as_stated P (clock_ms / 1000) user ↔ flow r = Next)
  ∧ (∀ u e, user = Some u → expires_at u = Some e →
       clock_ms / 1000 ≤ e → r = mkGateResult Next user [])
  ∧ (∀ u e token tokens,
       user = Some u → expires_at u = Some e → e < clock_ms / 1000 →
       refresh_token u = Some token → token ≠ "" →
       getOidcConfig P = true → refreshTokenGrant P token = Some tokens →
       r = mkGateResult Next (Some (updateUserSession u tokens))
             [RefreshCall token]).
Proof.
  intros Hnonzero r. subst r.
  pose proof (rejected_as_stated_iff P (clock_ms / 1000) user Hnonzero) as Hstated.
  split; [| split; [| split]].
  - rewrite <- Hstated. apply GateFacts.gate_rejects_iff.
  - rewrite <- Hstated, <- (GateFacts.gate_rejects_iff updateUserSession).
    destruct (GateFacts.gate_flow updateUserSession P clock_ms user) as [H|H];
      rewrite H; split; (done || intros ?; done).
  - intros u e -> He Hle. eapply GateFacts.gate_valid_passes; [done | | done].
    intros ->. by apply (Hnonzero u).
  - intros u e token tokens -> He Hlt Hrt Htok Hcfg Hgrant.
    rewrite (GateFacts.gate_expired_refresh _ P clock_ms u e token);
      [by rewrite Hcfg, Hgrant | done | | done | done | done].
    intros ->. by apply (Hnonzero u).
Qed.

Lemma gate_contract_witness :
  let user := Some (Examples.session_of (Some 3600) None) in
  ReplitAuth.isAuthenticated Examples.rejecting 1000000 user
  = mkGateResult Next user []
  ∧ ¬ rejected_as_stated Examples.rejecting (1000000 / 1000) user.
Proof.
  intros user.
  destruct (gate_contract ReplitAuth.updateUserSession Examples.rejecting
              1000000 user) as (_ & Hpass & Hvalid & _).
  { intros u Hu. injection Hu as <-. discriminate. }
  assert (Hsame : ReplitAuth.isAuthenticated Examples.rejecting 1000000 user
                  = mkGateResult Next user []).
  { apply (Hvalid (Examples.session_of (Some 3600) None) 3600);
      [reflexivity | reflexivity | by vm_compute]. }
  split; [exact Hsame |].
  apply Hpass. unfold ReplitAuth.isAuthenticated in Hsame. by rewrite Hsame.
Defined.

(** [C1] (as stated) fails: a session whose expiry is in the past and whose
    refresh token the provider accepts is in none of the four cases of
    rejection, and the gate passes its request on, but not unmodified: the
    session tuple of the request is no longer the one it was. *)
Lemma gate_pass_after_refresh_is_modified :
  let user := Some (Examples.session_of (Some 10) (Some "rt-1")) in
  let P := Examples.accepting (Examples.fresh_tokens 3600) in
  let r := ReplitAuth.isAuthenticated P 20000 user in
  ¬ rejected_as_stated P (20000 / 1000) user
  ∧ flow r = Next
  ∧ user_after r ≠ user.
Proof.
  split; [| split].
  - inversion 1 as [ | u Hmiss | u e He Hlt Hno | u e t He Hlt Ht Hne Hf ]; subst.
    + discriminate Hmiss.
    + discriminate Hno.
    + destruct Hf as [Hf|Hf]; discriminate Hf.
  - reflexivity.
  - intros Hsame. apply (f_equal (λ o, o ≫= access_token)) in Hsame.
    discriminate Hsame.
Qed.

(** [C4] (as amended) For a session whose expiry is set, not zero and in the
    past, and whose refresh token the provider accepts, the gate makes
    exactly one refresh call, passes the request on, and overwrites claims,
    access token, refresh token and expiry of the tuple stored under the same
    session identifier (no identifier is added or removed).  The new expiry
    is the [exp] claim of the token response: it is strictly greater than the
    old one whenever the response carries claims whose [exp] is not before
    the current time, and it is missing when the response carries no
    claims. *)
Theorem refresh_overwrites_in_place (P : Provider ReplitAuth.Tokens.t)
    (store : gmap string SessionUser) (sid : string) (clock_ms : Z)
    (u : SessionUser) (e : Z) (token : string) (tokens : ReplitAuth.Tokens.t) :
  store !! sid = Some u →
  expires_at u = Some e → e ≠ 0 → e < clock_ms / 1000 →
  refresh_token u = Some token → token ≠ "" →
  getOidcConfig P = true → refreshTokenGrant P token = Some tokens →
  let r := (ReplitAuth.gated_request P store (Some sid) clock_ms).1 in
  let store' := (ReplitAuth.gated_request P store (Some sid) clock_ms).2 in
  let u' := {| claims := ReplitAuth.Tokens.claims tokens;
               access_token := Some (ReplitAuth.Tokens.access_token tokens);
               refresh_token := ReplitAuth.Tokens.refresh_token tokens;
               expires_at := exp <$> ReplitAuth.Tokens.claims tokens |} in
  flow r = Next
  ∧ provider_calls r = [RefreshCall token]
  ∧ store' = <[sid := u']> store
  ∧ dom store' = dom store
  ∧ (∀ c, ReplitAuth.Tokens.claims tokens = Some c → clock_ms / 1000 ≤ exp c →
       ∃ e', store' !! sid ≫= expires_at = Some e' ∧ e < e')
  ∧ (ReplitAuth.Tokens.claims tokens = None →
       store' !! sid ≫= expires_at = None).
Proof.
  intros Hu He Hne Hlt Hrt Htok Hcfg Hgrant r store' u'.
  subst r store'. unfold ReplitAuth.gated_request, gated_request. simpl.
  rewrite Hu.
  rewrite (GateFacts.gate_expired_refresh _ P clock_ms u e token He Hne Hlt Hrt Htok).
  rewrite Hcfg, Hgrant. simpl.
  fold u'. repeat split.
  - apply dom_insert_lookup_L. by rewrite Hu.
  - intros c Hc Hle. rewrite lookup_insert_eq. simpl. rewrite Hc. simpl.
    exists (exp c). split; [done | lia].
  - intros Hc. rewrite lookup_insert_eq. simpl. by rewrite Hc.
Qed.

Lemma refresh_overwrites_in_place_witness :
  let store := Examples.store_of "sid-1" (Examples.session_of (Some 10) (Some "rt-1")) in
  let P := Examples.accepting (Examples.fresh_tokens 3600) in
  flow (ReplitAuth.gated_request P store (Some "sid-1") 20000).1 = Next
  ∧ provider_calls (ReplitAuth.gated_request P store (Some "sid-1") 20000).1
    = [RefreshCall "rt-1"]
  ∧ ∃ e', (ReplitAuth.gated_request P store (Some "sid-1") 20000).2 !! "sid-1"
            ≫= expires_at = Some e' ∧ 10 < e'.
Proof.
  intros store P.
  destruct (refresh_overwrites_in_place P store "sid-1" 20000
              (Examples.session_of (Some 10) (Some "rt-1")) 10 "rt-1"
              (Examples.fresh_tokens 3600))
    as (Hflow & Hcalls & _ & _ & Hexp & _);
    [reflexivity | reflexivity | lia | reflexivity | reflexivity | discriminate
    | reflexivity | reflexivity |].
  split; [exact Hflow |]. split; [exact Hcalls |].
  apply (Hexp (Examples.claims_of "u1" 3600)); [reflexivity | by vm_compute].
Defined.

(** [C4] (as stated) fails: the provider accepts the refresh token and
    answers without an ID token; the request passes, the tuple is
    overwritten, and the expiry of the session is missing afterwards instead
    of being greater than before. *)
Lemma refresh_without_claims_drops_expiry :
  let store := Examples.store_of "sid-1" (Examples.session_of (Some 10) (Some "rt-1")) in
  let P := Examples.accepting Examples.tokens_without_claims in
  let res := ReplitAuth.gated_request P store (Some "sid-1") 20000 in
  flow res.1 = Next
  ∧ provider_calls res.1 = [RefreshCall "rt-1"]
  ∧ ¬ ∃ e', res.2 !! "sid-1" ≫= expires_at = Some e' ∧ 10 < e'.
Proof.
  split; [reflexivity |]. split; [reflexivity |].
  intros (e' & He' & _). vm_compute in He'. discriminate He'.
Qed.

(** [C5] For a session whose expiry is in the past and whose refresh token
    the provider rejects, the gate answers 401 and the session store is left
    exactly as it was: the record is neither changed nor removed.  As long
    as the provider keeps rejecting the token, every later request with the
    same session is answered 401 again, and the store still holds the same
    record. *)
Theorem failed_refresh_keeps_session (P : Provider ReplitAuth.Tokens.t)
    (store : gmap string SessionUser) (sid : string) (clock_ms : Z)
    (u : SessionUser) (e : Z) (token : string) :
  store !! sid = Some u →
  expires_at u = Some e → e < clock_ms / 1000 →
  refresh_token u = Some token → token ≠ "" →
  refresh_fails P token →
  let res := ReplitAuth.gated_request P store (Some sid) clock_ms in
  flow res.1 = Reply unauthorized
  ∧ user_after res.1 = Some u
  ∧ res.2 = store
  ∧ ∀ later : list Z, Forall (λ t, clock_ms ≤ t) later →
      ReplitAuth.gated_requests P store (Some sid) later
      = (replicate (length later) (Reply unauthorized), store).
Proof.
  intros Hu He Hlt Hrt Htok Hfail res.
  assert (Hrej : ∀ t, clock_ms ≤ t → rejected P (t / 1000) (Some u)).
  { intros t Ht. eapply rejected_refresh_failed; eauto.
    pose proof (Z.div_le_mono clock_ms t 1000). lia. }
  assert (Hflow : flow res.1 = Reply unauthorized).
  { subst res. unfold ReplitAuth.gated_request, gated_request. simpl.
    rewrite Hu. apply GateFacts.gate_rejects_iff. apply Hrej. lia. }
  split; [exact Hflow |]. split; [| split].
  - subst res. unfold ReplitAuth.gated_request, gated_request in *. simpl in *.
    rewrite Hu in *. by apply GateFacts.gate_reject_keeps_user.
  - by apply StoreFacts.gated_request_rejected.
  - intros later Hlater.
    apply StoreFacts.gated_requests_all_rejected.
    simpl. rewrite Hu. eapply Forall_impl; [exact Hlater |].
    intros t Ht. by apply Hrej.
Qed.

Lemma failed_refresh_keeps_session_witness :
  let store := Examples.store_of "sid-1" (Examples.session_of (Some 10) (Some "rt-1")) in
  flow (ReplitAuth.gated_request Examples.rejecting store (Some "sid-1") 11000).1
  = Reply unauthorized
  ∧ (ReplitAuth.gated_request Examples.rejecting store (Some "sid-1") 11000).2 = store
  ∧ ReplitAuth.gated_requests Examples.rejecting store (Some "sid-1") [11000; 12000; 99000]
    = ([Reply unauthorized; Reply unauthorized; Reply unauthorized], store).
Proof.
  intros store.
  destruct (failed_refresh_keeps_session Examples.rejecting store "sid-1" 11000
              (Examples.session_of (Some 10) (Some "rt-1")) 10 "rt-1")
    as (Hflow & _ & Hstore & Hlater);
    [reflexivity | reflexivity | by vm_compute | reflexivity | discriminate
    | right; reflexivity |].
  split; [exact Hflow |]. split; [exact Hstore |].
  apply (Hlater [11000; 12000; 99000]).
  repeat constructor; by vm_compute.
Defined.

(** ** The users table *)

Module UserFacts.
Import Storage Statements.

Lemma upsertUser_result (now : Z) (uuid : string) (db : Db) (d : UpsertUser.t) :
  Storage.upsertUser now uuid db d =
    let key := default uuid (UpsertUser.id d) in
    if email_taken (users db) key (UpsertUser.email d)
    then Err "duplicate key value violates unique constraint users_email_unique"
    else
      let user := match users db !! key with
                  | Some old => updated_user now d old
                  | None => inserted_user key now d
                  end in
      Ok (user, set_users db (<[key := user]> (users db))).
Proof. reflexivity. Qed.

(** An upsert whose data has no [role] key keeps the role of every record. *)
Lemma upsertUser_roles_kept (now : Z) (uuid : string) (db db' : Db)
    (d : UpsertUser.t) (row : User.t) :
  UpsertUser.role d = None →
  Storage.upsertUser now uuid db d = Ok (row, db') →
  roles_kept db db'.
Proof.
  intros Hrole Hup id u Hu. rewrite upsertUser_result in Hup. simpl in Hup.
  destruct (email_taken _ _ _); [discriminate |].
  injection Hup as <- <-. simpl.
  destruct (decide (default uuid (UpsertUser.id d) = id)) as [->|Hne].
  - rewrite lookup_insert_eq, Hu. eexists. split; [done |].
    simpl. by rewrite Hrole.
  - rewrite lookup_insert_ne by done. eauto.
Qed.

(** The favorites and the properties are out of reach of an upsert. *)
Lemma upsertUser_other_tables (now : Z) (uuid : string) (db db' : Db)
    (d : UpsertUser.t) (row : User.t) :
  Storage.upsertUser now uuid db d = Ok (row, db') →
  favorites db' = favorites db ∧ properties db' = properties db.
Proof.
  rewrite upsertUser_result. simpl.
  destruct (email_taken _ _ _); [discriminate |].
  by injection 1 as <- <-.
Qed.

(** Both integrations call the storage with five keys; the proof of their
    statement is the same once the call is unfolded. *)
Ltac solve_claims_upsert Hu :=
  unfold claims_upsert_spec; simpl;
  match goal with
  | |- context [Storage.upsertUser ?now ?uuid ?db ?d] =>
      let Hup := fresh "Hup" in
      destruct (Storage.upsertUser now uuid db d) as [[? ?]|?] eqn:Hup;
      [ let Hkept := fresh "Hkept" in
        assert (Hkept : roles_kept db _)
          by (eapply upsertUser_roles_kept; [| exact Hup]; reflexivity);
        rewrite upsertUser_result in Hup; simpl in Hup;
        destruct (email_taken _ _ _); [discriminate |];
        rewrite Hu in Hup; injection Hup as <- <-; simpl;
        rewrite lookup_insert_eq; by repeat split
      | rewrite upsertUser_result in Hup; simpl in Hup;
        by destruct (email_taken _ _ _) ]
  end.

End UserFacts.

Import Storage Statements.

(** [C2] For every existing user record, an upsert driven by the claims of
    the identity provider, whatever they carry, leaves the stored role as it
    was, for the subject and for every other user, while email, first name,
    last name and picture are overwritten with the claims that are present
    (a column whose claim is absent keeps its value).  The upsert fails, and
    writes nothing, only when the email claim is held by another user.  This
    holds for the claim names of both integrations. *)
Theorem claims_never_change_role (now : Z) (uuid : string) (db : Db)
    (claims : Claims) (u : User.t) :
  users db !! sub claims = Some u →
  claims_upsert_spec "first_name" "last_name" "profile_image_url" db claims u
    (ReplitAuth.upsertUser now uuid db claims)
  ∧ claims_upsert_spec "given_name" "family_name" "picture" db claims u
      (GoogleAuth.upsertUser now uuid db claims).
Proof.
  intros Hu. split.
  - unfold ReplitAuth.upsertUser. UserFacts.solve_claims_upsert Hu.
  - unfold GoogleAuth.upsertUser. UserFacts.solve_claims_upsert Hu.
Qed.

Lemma claims_never_change_role_witness :
  ∃ row db',
    ReplitAuth.upsertUser 100 "uuid-1" Examples.db_1 Examples.claims_with_role
    = Ok (row, db')
    ∧ users db' !! "u1" = Some row
    ∧ User.role row = agent
    ∧ User.email row = Some "ann@new.example"
    ∧ User.firstName row = Some "Anna"
    ∧ User.lastName row = Some "Lee".
Proof.
  destruct (claims_never_change_role 100 "uuid-1" Examples.db_1
              Examples.claims_with_role Examples.agent_u1) as [Hreplit _];
    [reflexivity |].
  destruct (ReplitAuth.upsertUser 100 "uuid-1" Examples.db_1 Examples.claims_with_role)
    as [[row db']|msg] eqn:Hup; [| discriminate Hreplit].
  destruct Hreplit as (_ & Hrow & Hrole & Hemail & Hfirst & Hlast & _).
  exists row, db'. by repeat split.
Defined.

(** ** The role gate *)

Module RoleFacts.
Import Middleware.

(** A role name is never empty, so [dbUser?.role || 'buyer'] falls back to
    the default exactly when no record was found. *)
Lemma userRole_of_lookup (dbUser : option User.t) :
  or_else (role_name ∘ User.role <$> dbUser) "buyer"
  = match dbUser with
    | Some u => role_name (User.role u)
    | None => "buyer"
    end.
Proof.
  destruct dbUser as [u|]; [| done].
  unfold or_else. simpl. by destruct (User.role u).
Qed.

Section WithStorage.

Context {S : Type} `{IStorage.t S}.

(** Past the authentication gate the answer is a function of the lookup. *)
Lemma requireRole_after_gate (allowedRoles : list string)
    (P : Provider ReplitAuth.Tokens.t) (clock_ms : Z) (st : S)
    (user : option SessionUser) (c : Claims) :
  flow (ReplitAuth.isAuthenticated P clock_ms user) = Next →
  user_after (ReplitAuth.isAuthenticated P clock_ms user) ≫= claims = Some c →
  flow (requireRole allowedRoles P clock_ms st user)
  = match IStorage.getUser st (sub c) with
    | Err _ => Reply check_failed
    | Ok dbUser =>
        let userRole := or_else (role_name ∘ User.role <$> dbUser) "buyer" in
        if includes allowedRoles userRole
        then Next
        else Reply (forbidden allowedRoles userRole)
    end.
Proof.
  intros Hflow Hclaims. unfold requireRole. rewrite Hflow, Hclaims.
  destruct (IStorage.getUser st (sub c)) as [dbUser|msg]; [| done].
  simpl. by destruct (includes allowedRoles _).
Qed.

(** A request the authentication gate rejects never reaches the lookup. *)
Lemma requireRole_unauthenticated (allowedRoles : list string)
    (P : Provider ReplitAuth.Tokens.t) (clock_ms : Z) (st : S)
    (user : option SessionUser) :
  flow (ReplitAuth.isAuthenticated P clock_ms user) = Reply unauthorized →
  requireRole allowedRoles P clock_ms st user
  = ReplitAuth.isAuthenticated P clock_ms user.
Proof. intros Hflow. unfold requireRole. by rewrite Hflow. Qed.

(** A storage error is answered 500, never passed on. *)
Lemma requireRole_storage_error (allowedRoles : list string)
    (P : Provider ReplitAuth.Tokens.t) (clock_ms : Z) (st : S)
    (user : option SessionUser) (c : Claims) (msg : string) :
  flow (ReplitAuth.isAuthenticated P clock_ms user) = Next →
  user_after (ReplitAuth.isAuthenticated P clock_ms user) ≫= claims = Some c →
  IStorage.getUser st (sub c) = Err msg →
  flow (requireRole allowedRoles P clock_ms st user) = Reply check_failed.
Proof.
  intros Hflow Hclaims Herr.
  by rewrite (requireRole_after_gate _ _ _ _ _ c Hflow Hclaims), Herr.
Qed.

End WithStorage.

End RoleFacts.

Import Middleware.

(** [C3] For a request that passed the authentication gate, [requireRole]
    decides on the role of the record that the storage returns for the
    subject of the session, not on any claim: when no record exists the role
    is ['buyer']; when the role is not in the allow-list the answer is 403
    with a body that reports the allow-list and the caller's role; when it is
    in the allow-list the request goes on.  A buyer on
    [requireRole(['agent'])] gets 403 and an agent passes. *)
Theorem role_gate_decides_on_stored_role {S : Type} `{IStorage.t S}
    (allowedRoles : list string) (P : Provider ReplitAuth.Tokens.t)
    (clock_ms : Z) (st : S) (user : option SessionUser) (c : Claims)
    (dbUser : option User.t) :
  flow (ReplitAuth.isAuthenticated P clock_ms user) = Next →
  user_after (ReplitAuth.isAuthenticated P clock_ms user) ≫= claims = Some c →
  IStorage.getUser st (sub c) = Ok dbUser →
  let userRole := match dbUser with
                  | Some u => role_name (User.role u)
                  | None => "buyer"
                  end in
  (userRole ∉ allowedRoles →
     flow (requireRole allowedRoles P clock_ms st user)
     = Reply (SendJson 403 [("message", JString "Insufficient permissions");
                            ("required", JStrings allowedRoles);
                            ("current", JString userRole)]))
  ∧ (userRole ∈ allowedRoles →
       flow (requireRole allowedRoles P clock_ms st user) = Next)
  ∧ (User.role <$> dbUser = Some buyer →
       flow (requireRole ["agent"] P clock_ms st user)
       = Reply (forbidden ["agent"] "buyer"))
  ∧ (User.role <$> dbUser = Some agent →
       flow (requireRole ["agent"] P clock_ms st user) = Next).
Proof.
  intros Hflow Hclaims Hget userRole.
  assert (Hrole : ∀ allowed,
    flow (requireRole allowed P clock_ms st user)
    = if includes allowed userRole then Next
      else Reply (forbidden allowed userRole)).
  { intros allowed.
    rewrite (RoleFacts.requireRole_after_gate _ _ _ _ _ c Hflow Hclaims), Hget.
    simpl. by rewrite RoleFacts.userRole_of_lookup. }
  repeat split.
  - intros Hnot. rewrite Hrole.
    destruct (includes allowedRoles userRole) eqn:Hin; [| done].
    by apply includes_elem_of in Hin.
  - intros Hin. rewrite Hrole. apply includes_elem_of in Hin. by rewrite Hin.
  - intros Hb. rewrite Hrole. subst userRole.
    destruct dbUser as [u|]; [| done]. simpl in Hb. injection Hb as ->. done.
  - intros Ha. rewrite Hrole. subst userRole.
    destruct dbUser as [u|]; [| done]. simpl in Ha. injection Ha as ->. done.
Qed.

Lemma role_gate_decides_on_stored_role_witness :
  let P := Examples.rejecting in
  let buyer_request := Some (Examples.session_for "u2" (Some 3600) None) in
  let agent_request := Some (Examples.session_for "u1" (Some 3600) None) in
  flow (Middleware.requireAgent P 1000 Examples.db_1 buyer_request)
  = Reply (forbidden ["agent"] "buyer")
  ∧ flow (Middleware.requireAgent P 1000 Examples.db_1 agent_request) = Next.
Proof.
  intros P buyer_request agent_request. split.
  - apply (role_gate_decides_on_stored_role ["agent"] P 1000 Examples.db_1
             buyer_request (Examples.claims_of "u2" 3600) (Some Examples.buyer_u2));
      reflexivity.
  - apply (role_gate_decides_on_stored_role ["agent"] P 1000 Examples.db_1
             agent_request (Examples.claims_of "u1" 3600) (Some Examples.agent_u1));
      reflexivity.
Defined.

(** ** The callback handlers *)

Module CallbackFacts.
Import Passport.

(** Both handlers regenerate the session before anything else: whatever the
    session layer answers, the operations run in the order regenerate, log
    in, save, and the request ends on the regenerated identifier. *)
Lemma callback_regenerates_first (user : SessionUser) (a : SessionAnswers)
    (store : gmap string SessionUser) (sid : option string) :
  let replit := ReplitAuth.callback (AuthSuccess user) a store sid in
  let google := GoogleAuth.callback (AuthSuccess user) a store sid in
  cb_ops replit `prefix_of` [OpRegenerate; OpLogIn; OpSave]
  ∧ cb_ops google `prefix_of` [OpRegenerate; OpLogIn; OpSave]
  ∧ head (cb_ops replit) = Some OpRegenerate
  ∧ head (cb_ops google) = Some OpRegenerate
  ∧ cb_sid replit = Some (new_sid a)
  ∧ cb_sid google = Some (new_sid a).
Proof.
  simpl. destruct (regenerate a), (logIn a), (save a); simpl;
    repeat split; try done;
    first [ by exists [] | by exists [OpSave] | by exists [OpLogIn; OpSave] ].
Qed.

(** When regeneration or login fails, both handlers hand the error on, save
    nothing and attach no user to the request. *)
Lemma callback_no_login_on_session_error (user : SessionUser) (a : SessionAnswers)
    (store : gmap string SessionUser) (sid : option string) (err : string) :
  regenerate a = Err err ∨ (regenerate a = Ok () ∧ logIn a = Err err) →
  let replit := ReplitAuth.callback (AuthSuccess user) a store sid in
  let google := GoogleAuth.callback (AuthSuccess user) a store sid in
  cb_flow replit = NextErr err ∧ cb_user replit = None
  ∧ cb_flow google = NextErr err ∧ cb_user google = None
  ∧ (OpSave ∉ cb_ops replit) ∧ (OpSave ∉ cb_ops google).
Proof.
  intros [Hr | [Hr Hl]]; simpl; rewrite Hr; [| rewrite Hl]; simpl;
    repeat split; try done;
    repeat (apply not_elem_of_cons; split; [discriminate |]);
    apply not_elem_of_nil.
Qed.

(** A successful callback stores the user under the regenerated identifier
    and under no other, and removes the record of the old identifier. *)
Lemma callback_success_store (user : SessionUser) (a : SessionAnswers)
    (store : gmap string SessionUser) (old : string) :
  regenerate a = Ok () → logIn a = Ok () → save a = Ok () →
  new_sid a ≠ old →
  let replit := ReplitAuth.callback (AuthSuccess user) a store (Some old) in
  let google := GoogleAuth.callback (AuthSuccess user) a store (Some old) in
  replit = google
  ∧ cb_sid replit = Some (new_sid a)
  ∧ cb_sid replit ≠ Some old
  ∧ cb_store replit !! new_sid a = Some user
  ∧ cb_store replit !! old = None.
Proof.
  intros Hr Hl Hs Hne. simpl. rewrite Hr, Hl, Hs. simpl.
  unfold saved_store, regenerated_store. rewrite Hr, Hs. simpl.
  repeat split.
  - congruence.
  - apply lookup_insert_eq.
  - rewrite lookup_insert_ne by done. apply lookup_delete_eq.
Qed.

(** The Google handler hands a save error on. *)
Lemma google_callback_save_error (user : SessionUser) (a : SessionAnswers)
    (store : gmap string SessionUser) (sid : option string) (err : string) :
  regenerate a = Ok () → logIn a = Ok () → save a = Err err →
  cb_flow (GoogleAuth.callback (AuthSuccess user) a store sid) = NextErr err.
Proof. intros Hr Hl Hs. simpl. by rewrite Hr, Hl, Hs. Qed.

(** The Replit handler redirects whatever the save reports. *)
Lemma replit_callback_save_unchecked (user : SessionUser) (a : SessionAnswers)
    (store : gmap string SessionUser) (sid : option string) :
  regenerate a = Ok () → logIn a = Ok () →
  cb_flow (ReplitAuth.callback (AuthSuccess user) a store sid)
  = Reply (Redirect "/").
Proof. intros Hr Hl. simpl. by rewrite Hr, Hl. Qed.

End CallbackFacts.

Import Passport.

(** [C6] The claim holds for session regeneration (see
    [CallbackFacts.callback_regenerates_first] and
    [CallbackFacts.callback_no_login_on_session_error]) and fails in
    replitAuth.ts for session persistence: when the store fails to save the
    regenerated session, the handler of replitAuth.ts still redirects to [/]
    and no error reaches the error pipeline, although nothing was stored
    under the new identifier; the handler of googleAuth.ts hands the same
    error on. *)
Theorem replit_callback_ignores_save_error :
  let user := Examples.session_of (Some 3600) (Some "rt-1") in
  let store := Examples.store_of "sid-0" empty_user in
  let replit := ReplitAuth.callback (AuthSuccess user) Examples.save_fails
                  store (Some "sid-0") in
  let google := GoogleAuth.callback (AuthSuccess user) Examples.save_fails
                  store (Some "sid-0") in
  cb_flow replit = Reply (Redirect "/")
  ∧ cb_store replit !! "sid-1" = None
  ∧ cb_flow google = NextErr "session store unavailable".
Proof. repeat split; reflexivity. Qed.

(** [C7] (as amended) When authentication yields no verified user, the
    handler redirects to [/api/login], and the redirect carries nothing of
    what the provider reported.  When authentication reports an error, the
    handler does not redirect: it hands the error to the error pipeline.
    When authentication, regeneration, login and save all succeed, it
    redirects to [/].  This holds for both integrations. *)
Theorem callback_redirects (a : SessionAnswers)
    (store : gmap string SessionUser) (sid : option string) :
  (∀ info,
     cb_flow (ReplitAuth.callback (AuthFailure info) a store sid)
     = Reply (Redirect "/api/login")
     ∧ cb_flow (GoogleAuth.callback (AuthFailure info) a store sid)
       = Reply (Redirect "/api/login"))
  ∧ (∀ err,
       cb_flow (ReplitAuth.callback (AuthError err) a store sid) = NextErr err
       ∧ cb_flow (GoogleAuth.callback (AuthError err) a store sid) = NextErr err)
  ∧ (∀ user,
       regenerate a = Ok () → logIn a = Ok () → save a = Ok () →
       cb_flow (ReplitAuth.callback (AuthSuccess user) a store sid)
       = Reply (Redirect "/")
       ∧ cb_flow (GoogleAuth.callback (AuthSuccess user) a store sid)
         = Reply (Redirect "/")).
Proof.
  split; [done |]. split; [done |].
  intros user Hr Hl Hs. split.
  - by apply CallbackFacts.replit_callback_save_unchecked.
  - simpl. by rewrite Hr, Hl, Hs.
Qed.

Lemma callback_redirects_witness :
  let user := Examples.session_of (Some 3600) (Some "rt-1") in
  let store := Examples.store_of "sid-0" empty_user in
  cb_flow (ReplitAuth.callback (AuthFailure "access_denied") Examples.all_succeed
             store (Some "sid-0")) = Reply (Redirect "/api/login")
  ∧ cb_flow (ReplitAuth.callback (AuthSuccess user) Examples.all_succeed
               store (Some "sid-0")) = Reply (Redirect "/")
  ∧ cb_flow (GoogleAuth.callback (AuthSuccess user) Examples.all_succeed
               store (Some "sid-0")) = Reply (Redirect "/").
Proof.
  intros user store.
  destruct (callback_redirects Examples.all_succeed store (Some "sid-0"))
    as (Hfail & _ & Hok).
  split; [apply Hfail |].
  apply (Hok user); reflexivity.
Defined.

(** [C7] (as stated) fails: when the provider's answer makes authentication
    report an error, the handler does not redirect to [/api/login]. *)
Lemma callback_error_is_not_redirected :
  let store := Examples.store_of "sid-0" empty_user in
  let replit := ReplitAuth.callback (AuthError "invalid_grant") Examples.all_succeed
                  store (Some "sid-0") in
  let google := GoogleAuth.callback (AuthError "invalid_grant") Examples.all_succeed
                  store (Some "sid-0") in
  cb_flow replit = NextErr "invalid_grant"
  ∧ cb_flow replit ≠ Reply (Redirect "/api/login")
  ∧ cb_flow google ≠ Reply (Redirect "/api/login").
Proof. repeat split; done. Qed.

(** ** The registered strategies *)

Module StrategyFacts.

(** Registering the images of a list leaves in the registry only what was
    there and images of that list. *)
Lemma registered_by_fold (f : string → Strategy) (xs : list string)
    (registry : gmap string Strategy) (n : string) (s : Strategy) :
  foldl (λ reg x, passport_use (f x) reg) registry xs !! n = Some s →
  registry !! n = Some s ∨ ∃ x, x ∈ xs ∧ s = f x.
Proof.
  revert registry. induction xs as [|x xs IH]; intros registry Hs; simpl in Hs.
  - by left.
  - apply IH in Hs as [Hs | (y & Hy & ->)].
    + unfold passport_use in Hs.
      destruct (decide (name (f x) = n)) as [<-|Hne].
      * rewrite lookup_insert_eq in Hs. injection Hs as <-.
        right. exists x. split; [left | done].
      * rewrite lookup_insert_ne in Hs by done. by left.
    + right. exists y. split; [by right | done].
Qed.

(** The last strategy registered is in the registry. *)
Lemma fold_registers_last (f : string → Strategy) (xs : list string) (x : string)
    (registry : gmap string Strategy) :
  foldl (λ reg x, passport_use (f x) reg) registry (xs ++ [x])%list !! name (f x)
  = Some (f x).
Proof. rewrite foldl_app. simpl. apply lookup_insert_eq. Qed.

(** Every strategy of replitAuth.ts requests the same scope. *)
Lemma replit_scope (env : ReplitAuth.Env) (n : string) (s : Strategy) :
  ReplitAuth.setupAuth env !! n = Some s →
  scope s = "openid email profile offline_access".
Proof.
  unfold ReplitAuth.setupAuth. intros Hs.
  assert (Hdomains : ∀ n s,
    foldl (λ reg domain, passport_use (ReplitAuth.domain_strategy domain) reg) ∅
      (split "," (ReplitAuth.REPLIT_DOMAINS env)) !! n = Some s →
    scope s = "openid email profile offline_access").
  { intros n' s' Hs'. apply registered_by_fold in Hs' as [Hs' | (d & _ & ->)];
      [by rewrite lookup_empty in Hs' | done]. }
  destruct (negb (ReplitAuth.is_production env)); [| by eapply Hdomains].
  apply registered_by_fold in Hs as [Hs | (h & _ & ->)]; [by eapply Hdomains | done].
Qed.

(** [split] never returns the empty list, so at least one strategy is
    registered whatever [REPLIT_DOMAINS] holds. *)
Lemma split_from_snoc (sep : ascii) (cur s : string) :
  ∃ xs x, split_from sep cur s = (xs ++ [x])%list.
Proof.
  revert cur. induction s as [|c rest IH]; intros cur; simpl.
  - by exists [], (String.rev cur).
  - destruct (Ascii.eqb c sep).
    + destruct (IH EmptyString) as (xs & x & ->).
      by exists (String.rev cur :: xs), x.
    + apply IH.
Qed.

Lemma replit_registers_some (env : ReplitAuth.Env) :
  ∃ n s, ReplitAuth.setupAuth env !! n = Some s.
Proof.
  unfold ReplitAuth.setupAuth.
  destruct (negb (ReplitAuth.is_production env)).
  - exists (name (ReplitAuth.dev_strategy "127.0.0.1")),
           (ReplitAuth.dev_strategy "127.0.0.1").
    apply (fold_registers_last ReplitAuth.dev_strategy ["localhost"]).
  - destruct (split_from_snoc "," EmptyString (ReplitAuth.REPLIT_DOMAINS env))
      as (xs & x & Hsplit).
    unfold split. rewrite Hsplit.
    exists (name (ReplitAuth.domain_strategy x)), (ReplitAuth.domain_strategy x).
    apply fold_registers_last.
Qed.

(** The strategy of googleAuth.ts requests the three base scopes and no
    offline access. *)
Lemma google_scopes (url : option string) (n : string) (s : Strategy) :
  GoogleAuth.setupAuth url !! n = Some s →
  scopes s = ["openid"; "email"; "profile"].
Proof.
  unfold GoogleAuth.setupAuth, passport_use. simpl.
  intros [_ <-]%lookup_singleton_Some. reflexivity.
Qed.

End StrategyFacts.

(** [C9] Every strategy that either integration registers requests the
    scopes [openid], [email] and [profile]; every strategy of replitAuth.ts,
    the integration whose sessions are refreshed with the refresh token that
    offline access yields, requests [offline_access] as well. *)
Theorem strategies_request_scopes (env : ReplitAuth.Env) (url : option string)
    (n : string) (s : Strategy) :
  (ReplitAuth.setupAuth env !! n = Some s →
     "openid" ∈ scopes s ∧ "email" ∈ scopes s ∧ "profile" ∈ scopes s
     ∧ "offline_access" ∈ scopes s)
  ∧ (GoogleAuth.setupAuth url !! n = Some s →
       "openid" ∈ scopes s ∧ "email" ∈ scopes s ∧ "profile" ∈ scopes s).
Proof.
  split; intros Hs.
  - unfold scopes. rewrite (StrategyFacts.replit_scope env n s Hs).
    change (split " " "openid email profile offline_access")
      with ["openid"; "email"; "profile"; "offline_access"].
    repeat split; apply includes_elem_of; reflexivity.
  - rewrite (StrategyFacts.google_scopes url n s Hs).
    repeat split; apply includes_elem_of; reflexivity.
Qed.

Lemma strategies_request_scopes_witness :
  let s := ReplitAuth.domain_strategy "b.example" in
  ReplitAuth.setupAuth Examples.two_domains !! "replitauth:b.example" = Some s
  ∧ "openid" ∈ scopes s ∧ "email" ∈ scopes s ∧ "profile" ∈ scopes s
  ∧ "offline_access" ∈ scopes s.
Proof.
  intros s.
  assert (Hs : ReplitAuth.setupAuth Examples.two_domains !! "replitauth:b.example"
               = Some s) by (vm_compute; reflexivity).
  split; [exact Hs |].
  by apply (strategies_request_scopes Examples.two_domains None
              "replitauth:b.example" s).
Defined.

(** ** The profile update *)

Module PatchFacts.
Import Routes.



(** A body that is not an object is answered 400 and changes nothing. *)
Lemma patch_invalid_body {S : Type} `{IStorage.t S} (now : Z) (uuid : string)
    (st : S) (user : SessionUser) (c : Claims) (body : Body) :
  claims user = Some c → body = BodyFalsy ∨ body = BodyPrimitive →
  patch_auth_user now uuid st user body = (message 400 "Invalid input data", st).
Proof. intros Hc [-> | ->]; unfold patch_auth_user; by rewrite Hc. Qed.

(** A request that the gate rejects is answered 401 and changes nothing. *)
Lemma route_patch_unauthenticated {S : Type} `{IStorage.t S}
    (P : Provider ReplitAuth.Tokens.t) (clock_ms now : Z) (uuid : string) (st : S)
    (user : option SessionUser) (body : Body) :
  flow (ReplitAuth.isAuthenticated P clock_ms user) = Reply unauthorized →
  route_patch_auth_user P clock_ms now uuid st user body = (Reply unauthorized, st).
Proof. intros Hflow. unfold route_patch_auth_user. by rewrite Hflow. Qed.

End PatchFacts.

Import Routes.



(** ** The favorites table *)

Module FavoriteFacts.

Lemma same_pair_true (userId propertyId : string) (f : Favorite.t) :
  same_pair userId propertyId f = true ↔ pair_of f = (userId, propertyId).
Proof.
  unfold same_pair, pair_of. rewrite andb_true_iff, !String.eqb_eq.
  split; [by intros [-> ->] | by injection 1].
Qed.

Lemma filter_same_pair_absent (fs : list Favorite.t) (userId propertyId : string) :
  (userId, propertyId) ∉ pair_of <$> fs →
  List.filter (same_pair userId propertyId) fs = [].
Proof.
  induction fs as [|g fs IH]; intros Hout; [done |].
  rewrite fmap_cons in Hout. apply not_elem_of_cons in Hout as [Hg Hout]. simpl.
  destruct (same_pair userId propertyId g) eqn:Hsame; [| by apply IH].
  apply same_pair_true in Hsame. congruence.
Qed.

(** Under the unique constraint the select of [getFavorite] has one row. *)
Lemma filter_same_pair_unique (fs : list Favorite.t) (f : Favorite.t)
    (userId propertyId : string) :
  unique_pairs fs → f ∈ fs → pair_of f = (userId, propertyId) →
  List.filter (same_pair userId propertyId) fs = [f].
Proof.
  unfold unique_pairs. induction fs as [|g fs IH]; intros Hnd Hin Hpair.
  - by apply elem_of_nil in Hin.
  - rewrite fmap_cons in Hnd. apply NoDup_cons in Hnd as [Hg Hnd]. simpl.
    apply elem_of_cons in Hin as [<-|Hin].
    + rewrite (proj2 (same_pair_true userId propertyId f) Hpair). f_equal.
      apply filter_same_pair_absent. by rewrite <- Hpair.
    + destruct (same_pair userId propertyId g) eqn:Hsame; [| by apply IH].
      apply same_pair_true in Hsame. exfalso. apply Hg.
      rewrite Hsame, <- Hpair. by apply list_elem_of_fmap_2.
Qed.

Lemma filter_keeps_unique (keep : Favorite.t → bool) (fs : list Favorite.t) :
  unique_pairs fs → unique_pairs (List.filter keep fs).
Proof.
  unfold unique_pairs. induction fs as [|g fs IH]; intros Hnd; [done |].
  rewrite fmap_cons in Hnd. apply NoDup_cons in Hnd as [Hg Hnd]. simpl.
  destruct (keep g); [| by apply IH].
  rewrite fmap_cons. apply NoDup_cons. split; [| by apply IH].
  intros (h & Hh & Hin)%list_elem_of_fmap_1. apply Hg. rewrite Hh.
  apply list_elem_of_fmap_2. apply list_elem_of_In in Hin.
  apply filter_In in Hin as [Hin _]. by apply list_elem_of_In.
Qed.

(** The insert is skipped exactly when a row clashes with it. *)
Lemma conflict_of_existing (uuid : string) (ins : InsertFavorite.t)
    (fs : list Favorite.t) (f : Favorite.t) :
  f ∈ fs →
  pair_of f = (InsertFavorite.userId ins, InsertFavorite.propertyId ins) →
  existsb (conflicts uuid ins) fs = true.
Proof.
  intros Hin Hpair. apply existsb_exists. exists f.
  split; [by apply list_elem_of_In |].
  unfold conflicts. apply orb_true_iff. right. by apply same_pair_true.
Qed.

Lemma no_conflict_fresh (uuid : string) (ins : InsertFavorite.t)
    (fs : list Favorite.t) :
  existsb (conflicts uuid ins) fs = false →
  (InsertFavorite.userId ins, InsertFavorite.propertyId ins) ∉ pair_of <$> fs.
Proof.
  intros Hnone (f & Hpair & Hin)%list_elem_of_fmap_1.
  rewrite (conflict_of_existing uuid ins fs f Hin) in Hnone; done.
Qed.

(** Both operations keep the unique constraint. *)
Lemma addFavorite_keeps_unique (now : Z) (uuid : string) (db db' : Db)
    (ins : InsertFavorite.t) (f : Favorite.t) :
  unique_pairs (favorites db) →
  Storage.addFavorite now uuid db ins = Ok (f, db') →
  unique_pairs (favorites db')
  ∧ f ∈ favorites db'
  ∧ pair_of f = (InsertFavorite.userId ins, InsertFavorite.propertyId ins).
Proof.
  intros Hnd. unfold Storage.addFavorite, Storage.getFavorite.
  destruct (existsb (conflicts uuid ins) (favorites db)) eqn:Hconf.
  - destruct (List.filter _ (favorites db)) as [|g gs] eqn:Hsel; [done |].
    simpl. injection 1 as <- <-.
    assert (Hg : In g (List.filter
      (same_pair (InsertFavorite.userId ins) (InsertFavorite.propertyId ins))
      (favorites db))) by (rewrite Hsel; by left).
    apply filter_In in Hg as [Hin Hsame].
    split; [done |]. split; [by apply list_elem_of_In | by apply same_pair_true].
  - destruct (references_ok db ins); [| done].
    injection 1 as <- <-. simpl. split; [| split; [| done]].
    + unfold unique_pairs. rewrite fmap_app. apply NoDup_app.
      split; [done |]. split; [| apply NoDup_singleton].
      intros pr Hpr Heq. apply list_elem_of_singleton in Heq. subst pr.
      by apply (no_conflict_fresh uuid ins (favorites db) Hconf).
    + apply elem_of_app. right. by apply list_elem_of_singleton.
Qed.

Lemma removeFavorite_keeps_unique (db db' : Db) (userId propertyId : string)
    (removed : bool) :
  unique_pairs (favorites db) →
  Storage.removeFavorite db userId propertyId = Ok (removed, db') →
  unique_pairs (favorites db').
Proof.
  intros Hnd. unfold Storage.removeFavorite. injection 1 as _ <-. simpl.
  by apply filter_keeps_unique.
Qed.

Lemma after_call_keeps_unique (db : Db) (call : FavoriteCall) :
  unique_pairs (favorites db) → unique_pairs (favorites (after_call db call)).
Proof.
  intros Hnd. destruct call as [now uuid ins | userId propertyId]; simpl.
  - destruct (Storage.addFavorite now uuid db ins) as [[f db']|msg] eqn:Hadd; [| done].
    by eapply addFavorite_keeps_unique.
  - by apply filter_keeps_unique.
Qed.

Lemma after_calls_keep_unique (calls : list FavoriteCall) (db : Db) :
  unique_pairs (favorites db) → unique_pairs (favorites (after_calls db calls)).
Proof.
  unfold after_calls. revert db.
  induction calls as [|call calls IH]; intros db Hnd; [done |].
  simpl. apply IH. by apply after_call_keeps_unique.
Qed.

(** Starting from an empty favorites table, no run of calls ever stores two
    favorites of one user for one property. *)
Lemma favorites_always_unique (calls : list FavoriteCall) (db : Db) :
  favorites db = [] → unique_pairs (favorites (after_calls db calls)).
Proof.
  intros Hempty. apply after_calls_keep_unique.
  unfold unique_pairs. rewrite Hempty. apply NoDup_nil_2.
Qed.

End FavoriteFacts.

(** [C10] When a favorite of the user for the property already exists,
    [addFavorite] returns that record and leaves the database as it was,
    whatever identifier and time the database would have given the new row.
    No run of [addFavorite] and [removeFavorite] calls breaks the rule that
    a user has at most one favorite per property. *)
Theorem addFavorite_idempotent (now : Z) (uuid : string) (db : Db)
    (ins : InsertFavorite.t) (f : Favorite.t) :
  unique_pairs (favorites db) →
  f ∈ favorites db →
  Favorite.userId f = InsertFavorite.userId ins →
  Favorite.propertyId f = InsertFavorite.propertyId ins →
  Storage.addFavorite now uuid db ins = Ok (f, db)
  ∧ ∀ calls, unique_pairs (favorites (after_calls db calls)).
Proof.
  intros Hnd Hin Huser Hprop.
  assert (Hpair : pair_of f
                  = (InsertFavorite.userId ins, InsertFavorite.propertyId ins)).
  { unfold pair_of. by rewrite Huser, Hprop. }
  split.
  - unfold Storage.addFavorite, Storage.getFavorite.
    rewrite (FavoriteFacts.conflict_of_existing uuid ins _ f Hin Hpair).
    by rewrite (FavoriteFacts.filter_same_pair_unique _ f _ _ Hnd Hin Hpair).
  - intros calls. by apply FavoriteFacts.after_calls_keep_unique.
Qed.

Lemma addFavorite_idempotent_witness :
  let ins := {| InsertFavorite.userId := "u2"; InsertFavorite.propertyId := "p1" |} in
  Storage.addFavorite 50 "f2" Examples.db_1 ins = Ok (Examples.favorite_1, Examples.db_1)
  ∧ unique_pairs
      (favorites (after_calls Examples.db_1 [CallAdd 50 "f2" ins; CallAdd 51 "f3" ins])).
Proof.
  intros ins.
  destruct (addFavorite_idempotent 50 "f2" Examples.db_1 ins Examples.favorite_1)
    as [Hadd Hcalls];
    [ apply NoDup_singleton | by apply list_elem_of_singleton
    | reflexivity | reflexivity |].
  split; [exact Hadd | apply Hcalls].
Defined.

(** * Further properties of the code *)

Import MoreStatements.

(** ** The gate and the session store *)

Module MoreGateFacts.

Section WithIntegration.

Context {Tokens : Type}.
Variable updateUserSession : SessionUser → Tokens → SessionUser.

(** The gate hands back a tuple exactly when it was given one. *)
Lemma gate_user_after_is_Some (P : Provider Tokens) (clock_ms : Z)
    (user : option SessionUser) :
  is_Some (user_after (isAuthenticated updateUserSession P clock_ms user))
  ↔ is_Some user.
Proof.
  unfold isAuthenticated.
  destruct user as [u|]; simpl; repeat (case_match; simpl);
    split; intros [x Hx]; try done; eauto.
Qed.

End WithIntegration.

End MoreGateFacts.

(** [X1] A gated request reads and writes the record of its own session only:
    the store has the same session identifiers afterwards, and the record
    of every other identifier is the one it was. *)
Theorem gated_request_touches_own_session_only {Tokens : Type}
    (updateUserSession : SessionUser → Tokens → SessionUser)
    (P : Provider Tokens) (store : gmap string SessionUser)
    (sid : option string) (clock_ms : Z) :
  let store' := (gated_request updateUserSession P store sid clock_ms).2 in
  dom store' = dom store
  ∧ ∀ other, sid ≠ Some other → store' !! other = store !! other.
Proof.
  simpl. unfold save_session.
  destruct sid as [s|]; [| done].
  pose proof (MoreGateFacts.gate_user_after_is_Some updateUserSession P clock_ms
                (req_user store (Some s))) as Hsome.
  destruct (user_after _) as [u'|]; [| done].
  destruct (proj1 Hsome (ex_intro _ u' eq_refl)) as [u Hu]. simpl in Hu.
  split.
  - apply dom_insert_lookup_L. by rewrite Hu.
  - intros other Hne. apply lookup_insert_ne. congruence.
Qed.

(** [X2] The gate calls the token endpoint at most once per request, and only for
    a tuple whose expiry is set, not zero and in the past: then the call
    carries the refresh token of that tuple. *)
Theorem gate_calls_provider_at_most_once {Tokens : Type}
    (updateUserSession : SessionUser → Tokens → SessionUser)
    (P : Provider Tokens) (clock_ms : Z) (user : option SessionUser) :
  let r := isAuthenticated updateUserSession P clock_ms user in
  provider_calls r = []
  ∨ ∃ u e token,
      user = Some u ∧ expires_at u = Some e ∧ e ≠ 0 ∧ e < clock_ms / 1000
      ∧ refresh_token u = Some token ∧ token ≠ ""
      ∧ getOidcConfig P = true
      ∧ provider_calls r = [RefreshCall token].
Proof.
  simpl. unfold isAuthenticated.
  destruct user as [u|]; simpl; [| by left].
  destruct (expires_at u) as [e|] eqn:He; simpl; [| by left].
  destruct (Z.eqb_spec e 0) as [->|Hne]; simpl; [by left |].
  destruct (Z.leb_spec (clock_ms / 1000) e) as [Hle|Hlt]; simpl; [by left |].
  destruct (refresh_token u) as [token|] eqn:Hrt; simpl; [| by left].
  destruct (String.eqb_spec token "") as [->|Htok]; simpl; [by left |].
  destruct (getOidcConfig P) eqn:Hcfg; [| by left].
  right. exists u, e, token.
  destruct (refreshTokenGrant P token); simpl; by repeat split.
Qed.

(** [X3] A session without a refresh token fails closed: once its expiry is in
    the past, this request and every later one with the same session is
    answered 401, the provider is not called, and the store keeps the
    record. *)
Theorem expired_without_refresh_token_fails_closed
    (P : Provider ReplitAuth.Tokens.t) (store : gmap string SessionUser)
    (sid : string) (clock_ms : Z) (u : SessionUser) (e : Z) :
  store !! sid = Some u →
  expires_at u = Some e → e < clock_ms / 1000 →
  truthy_str (refresh_token u) = false →
  ReplitAuth.gated_request P store (Some sid) clock_ms
  = (mkGateResult (Reply unauthorized) (Some u) [], store)
  ∧ ∀ later : list Z, Forall (λ t, clock_ms ≤ t) later →
      ReplitAuth.gated_requests P store (Some sid) later
      = (replicate (length later) (Reply unauthorized), store).
Proof.
  intros Hu He Hlt Hno.
  assert (Hrej : ∀ t, clock_ms ≤ t → rejected P (t / 1000) (Some u)).
  { intros t Ht. eapply rejected_expired_no_refresh; eauto.
    pose proof (Z.div_le_mono clock_ms t 1000). lia. }
  split.
  - unfold ReplitAuth.gated_request, gated_request. simpl. rewrite Hu.
    assert (Hgate : isAuthenticated ReplitAuth.updateUserSession P clock_ms (Some u)
                    = mkGateResult (Reply unauthorized) (Some u) []).
    { unfold isAuthenticated. simpl. rewrite He. simpl.
      destruct (Z.eqb_spec e 0); [done |]. simpl.
      destruct (Z.leb_spec (clock_ms / 1000) e); [lia |]. simpl.
      by rewrite Hno. }
    rewrite Hgate. simpl. by rewrite insert_id.
  - intros later Hlater.
    apply StoreFacts.gated_requests_all_rejected.
    simpl. rewrite Hu. eapply Forall_impl; [exact Hlater |].
    intros t Ht. by apply Hrej.
Qed.

Lemma expired_without_refresh_token_fails_closed_witness :
  let store := Examples.store_of "sid-1" (Examples.session_of (Some 10) None) in
  ReplitAuth.gated_request (Examples.accepting (Examples.fresh_tokens 3600))
    store (Some "sid-1") 11000
  = (mkGateResult (Reply unauthorized) (Some (Examples.session_of (Some 10) None)) [],
     store)
  ∧ ReplitAuth.gated_requests (Examples.accepting (Examples.fresh_tokens 3600))
      store (Some "sid-1") [11000; 50000]
    = ([Reply unauthorized; Reply unauthorized], store).
Proof.
  intros store.
  destruct (expired_without_refresh_token_fails_closed
              (Examples.accepting (Examples.fresh_tokens 3600)) store "sid-1" 11000
              (Examples.session_of (Some 10) None) 10)
    as [Hfirst Hlater];
    [reflexivity | reflexivity | by vm_compute | reflexivity |].
  split; [exact Hfirst |].
  apply (Hlater [11000; 50000]). repeat constructor; by vm_compute.
Defined.

(** [X4] A refresh overwrites the refresh token with the one of the response: when
    the provider answers a refresh without a new refresh token, the session
    holds none afterwards, and once the refreshed expiry is in the past the
    gate answers 401 without calling the provider. *)
Theorem refresh_without_new_token_ends_refreshing
    (P : Provider ReplitAuth.Tokens.t) (clock_ms later_ms : Z)
    (u : SessionUser) (e : Z) (token : string) (tokens : ReplitAuth.Tokens.t)
    (c : Claims) :
  expires_at u = Some e → e ≠ 0 → e < clock_ms / 1000 →
  refresh_token u = Some token → token ≠ "" →
  getOidcConfig P = true → refreshTokenGrant P token = Some tokens →
  ReplitAuth.Tokens.claims tokens = Some c →
  truthy_str (ReplitAuth.Tokens.refresh_token tokens) = false →
  exp c < later_ms / 1000 →
  let first := ReplitAuth.isAuthenticated P clock_ms (Some u) in
  flow first = Next
  ∧ (user_after first ≫= refresh_token) = ReplitAuth.Tokens.refresh_token tokens
  ∧ ReplitAuth.isAuthenticated P later_ms (user_after first)
    = mkGateResult (Reply unauthorized) (user_after first) [].
Proof.
  intros He Hne Hlt Hrt Htok Hcfg Hgrant Hc Hno Hlater first. subst first.
  unfold ReplitAuth.isAuthenticated.
  rewrite (GateFacts.gate_expired_refresh _ P clock_ms u e token He Hne Hlt Hrt Htok).
  rewrite Hcfg, Hgrant. simpl. split; [done |]. split; [done |].
  unfold isAuthenticated. simpl. rewrite Hc. simpl.
  destruct (Z.eqb_spec (exp c) 0); [done |]. simpl.
  destruct (Z.leb_spec (later_ms / 1000) (exp c)); [lia |]. simpl.
  by rewrite Hno.
Qed.

Lemma refresh_without_new_token_ends_refreshing_witness :
  let P := Examples.accepting MoreExamples.tokens_without_refresh_token in
  let first := ReplitAuth.isAuthenticated P 20000
                 (Some (Examples.session_of (Some 10) (Some "rt-1"))) in
  flow first = Next
  ∧ ReplitAuth.isAuthenticated P 3601000 (user_after first)
    = mkGateResult (Reply unauthorized) (user_after first) [].
Proof.
  intros P first.
  destruct (refresh_without_new_token_ends_refreshing P 20000 3601000
              (Examples.session_of (Some 10) (Some "rt-1")) 10 "rt-1"
              MoreExamples.tokens_without_refresh_token (Examples.claims_of "u1" 3600))
    as (Hflow & _ & Hlater);
    [reflexivity | lia | by vm_compute | reflexivity | discriminate | reflexivity
    | reflexivity | reflexivity | reflexivity | by vm_compute |].
  split; [exact Hflow | exact Hlater].
Defined.

(** ** Role gates in a chain *)

Module MoreRoleFacts.

Section WithStorage.

Context {S : Type} `{IStorage.t S}.

(** [requireRole] adds no provider call and no change of the tuple to what
    its run of the gate does. *)
Lemma requireRole_effects (allowedRoles : list string)
    (P : Provider ReplitAuth.Tokens.t) (clock_ms : Z) (st : S)
    (user : option SessionUser) :
  let gate := ReplitAuth.isAuthenticated P clock_ms user in
  provider_calls (requireRole allowedRoles P clock_ms st user) = provider_calls gate
  ∧ user_after (requireRole allowedRoles P clock_ms st user) = user_after gate.
Proof.
  simpl. unfold requireRole.
  destruct (flow (ReplitAuth.isAuthenticated P clock_ms user)); [| done | done].
  destruct (user_after _ ≫= claims); [| done].
  destruct (IStorage.getUser st _); [| done].
  by destruct (negb _).
Qed.

End WithStorage.

End MoreRoleFacts.

(** [X5] The three exported gates are not ordered by privilege: behind the
    authentication gate, [requireAgent] passes agents only, [requireSeller]
    passes sellers and agents only (an admin is refused), and [requireAdmin]
    passes admins only. *)
Theorem exported_gates_pass_exactly {S : Type} `{IStorage.t S}
    (P : Provider ReplitAuth.Tokens.t) (clock_ms : Z) (st : S)
    (user : option SessionUser) (c : Claims) (u : User.t) :
  flow (ReplitAuth.isAuthenticated P clock_ms user) = Next →
  user_after (ReplitAuth.isAuthenticated P clock_ms user) ≫= claims = Some c →
  IStorage.getUser st (sub c) = Ok (Some u) →
  (flow (requireAgent P clock_ms st user) = Next ↔ User.role u = agent)
  ∧ (flow (requireSeller P clock_ms st user) = Next
     ↔ User.role u = seller ∨ User.role u = agent)
  ∧ (flow (requireAdmin P clock_ms st user) = Next ↔ User.role u = admin).
Proof.
  intros Hflow Hclaims Hget.
  unfold requireAgent, requireSeller, requireAdmin.
  rewrite !(RoleFacts.requireRole_after_gate _ _ _ _ _ c Hflow Hclaims), Hget.
  simpl. unfold or_else. simpl.
  destruct (User.role u); simpl; repeat split; try done;
    try (intros [?|?]; done); auto.
Qed.

Lemma exported_gates_pass_exactly_witness :
  let request := Some (Examples.session_for "u1" (Some 3600) None) in
  flow (requireAgent Examples.rejecting 1000 Examples.db_1 request) = Next
  ∧ flow (requireSeller Examples.rejecting 1000 Examples.db_1 request) = Next
  ∧ flow (requireAdmin Examples.rejecting 1000 Examples.db_1 request) ≠ Next.
Proof.
  intros request.
  destruct (exported_gates_pass_exactly Examples.rejecting 1000 Examples.db_1
              request (Examples.claims_of "u1" 3600) Examples.agent_u1)
    as (Hagent & Hseller & Hadmin); [reflexivity | reflexivity | reflexivity |].
  split; [by apply Hagent |]. split; [apply Hseller; by right |].
  intros Hpass. apply Hadmin in Hpass. discriminate Hpass.
Defined.


(** [X7] On a route registered behind [isAuthenticated] and [requireRole], a
    session that the first run of the gate refreshes with claims that are
    still valid is refreshed once: the second run of the gate passes the
    fresh tuple without a provider call, and the role is looked up for the
    subject of the fresh claims. *)
Theorem chain_refreshes_once {S : Type} `{IStorage.t S}
    (allowedRoles : list string) (P : Provider ReplitAuth.Tokens.t)
    (clock_ms : Z) (st : S) (u : SessionUser) (e : Z) (token : string)
    (tokens : ReplitAuth.Tokens.t) (c : Claims) (dbUser : option User.t) :
  expires_at u = Some e → e ≠ 0 → e < clock_ms / 1000 →
  refresh_token u = Some token → token ≠ "" →
  getOidcConfig P = true → refreshTokenGrant P token = Some tokens →
  ReplitAuth.Tokens.claims tokens = Some c →
  exp c ≠ 0 → clock_ms / 1000 ≤ exp c →
  IStorage.getUser st (sub c) = Ok dbUser →
  let chain := isAuthenticated_then_requireRole allowedRoles P clock_ms st (Some u) in
  let userRole := match dbUser with
                  | Some row => role_name (User.role row)
                  | None => "buyer"
                  end in
  provider_calls chain = [RefreshCall token]
  ∧ user_after chain = Some (ReplitAuth.updateUserSession u tokens)
  ∧ flow chain = if includes allowedRoles userRole then Next
                 else Reply (forbidden allowedRoles userRole).
Proof.
  intros He Hne Hlt Hrt Htok Hcfg Hgrant Hc Hexp Hle Hget chain userRole.
  subst chain. unfold isAuthenticated_then_requireRole, ReplitAuth.isAuthenticated.
  rewrite (GateFacts.gate_expired_refresh _ P clock_ms u e token He Hne Hlt Hrt Htok).
  rewrite Hcfg, Hgrant. simpl.
  set (u' := ReplitAuth.updateUserSession u tokens).
  assert (Hgate : ReplitAuth.isAuthenticated P clock_ms (Some u')
                  = mkGateResult Next (Some u') []).
  { apply (GateFacts.gate_valid_passes _ P clock_ms u' (exp c)); [| done | done].
    subst u'. simpl. by rewrite Hc. }
  destruct (MoreRoleFacts.requireRole_effects allowedRoles P clock_ms st (Some u'))
    as [Hcalls Huser].
  rewrite Hcalls, Huser, Hgate. simpl. split; [done |]. split; [done |].
  rewrite (RoleFacts.requireRole_after_gate allowedRoles P clock_ms st (Some u') c).
  - rewrite Hget. simpl. by rewrite RoleFacts.userRole_of_lookup.
  - by rewrite Hgate.
  - rewrite Hgate. subst u'. simpl. by rewrite Hc.
Qed.

Lemma chain_refreshes_once_witness :
  let chain :=
    isAuthenticated_then_requireRole ["agent"]
      (Examples.accepting (Examples.fresh_tokens 3600)) 20000 Examples.db_1
      (Some (Examples.session_of (Some 10) (Some "rt-1"))) in
  provider_calls chain = [RefreshCall "rt-1"] ∧ flow chain = Next.
Proof.
  intros chain.
  destruct (chain_refreshes_once ["agent"]
              (Examples.accepting (Examples.fresh_tokens 3600)) 20000 Examples.db_1
              (Examples.session_of (Some 10) (Some "rt-1")) 10 "rt-1"
              (Examples.fresh_tokens 3600) (Examples.claims_of "u1" 3600)
              (Some Examples.agent_u1))
    as (Hcalls & _ & Hflow);
    [reflexivity | lia | by vm_compute | reflexivity | discriminate | reflexivity
    | reflexivity | reflexivity | discriminate | by vm_compute | reflexivity |].
  split; [exact Hcalls | exact Hflow].
Defined.

(** [X8] On such a route a refresh that the provider answers without an ID token
    ends in 401: the first run of the gate passes the request on with a tuple
    that has no expiry, and the run of the gate inside [requireRole] rejects
    that tuple, whatever the stored role. *)
Theorem chain_rejects_refresh_without_claims {S : Type} `{IStorage.t S}
    (allowedRoles : list string) (P : Provider ReplitAuth.Tokens.t)
    (clock_ms : Z) (st : S) (u : SessionUser) (e : Z) (token : string)
    (tokens : ReplitAuth.Tokens.t) :
  expires_at u = Some e → e ≠ 0 → e < clock_ms / 1000 →
  refresh_token u = Some token → token ≠ "" →
  getOidcConfig P = true → refreshTokenGrant P token = Some tokens →
  ReplitAuth.Tokens.claims tokens = None →
  flow (ReplitAuth.isAuthenticated P clock_ms (Some u)) = Next
  ∧ isAuthenticated_then_requireRole allowedRoles P clock_ms st (Some u)
    = mkGateResult (Reply unauthorized)
        (Some (ReplitAuth.updateUserSession u tokens)) [RefreshCall token].
Proof.
  intros He Hne Hlt Hrt Htok Hcfg Hgrant Hc.
  unfold isAuthenticated_then_requireRole, ReplitAuth.isAuthenticated.
  rewrite (GateFacts.gate_expired_refresh _ P clock_ms u e token He Hne Hlt Hrt Htok).
  rewrite Hcfg, Hgrant. simpl. split; [done |].
  unfold requireRole, ReplitAuth.isAuthenticated, isAuthenticated. simpl.
  by rewrite Hc.
Qed.

Lemma chain_rejects_refresh_without_claims_witness :
  let P := Examples.accepting Examples.tokens_without_claims in
  let user := Some (Examples.session_of (Some 10) (Some "rt-1")) in
  flow (ReplitAuth.isAuthenticated P 20000 user) = Next
  ∧ flow (isAuthenticated_then_requireRole ["agent"] P 20000 Examples.db_1 user)
    = Reply unauthorized.
Proof.
  intros P user.
  destruct (chain_rejects_refresh_without_claims ["agent"] P 20000 Examples.db_1
              (Examples.session_of (Some 10) (Some "rt-1")) 10 "rt-1"
              Examples.tokens_without_claims)
    as [Hfirst Hchain];
    [reflexivity | lia | by vm_compute | reflexivity | discriminate | reflexivity
    | reflexivity | reflexivity |].
  split; [exact Hfirst |]. unfold user. by rewrite Hchain.
Defined.

(** ** The strategies the login and callback handlers name *)

Module MoreStrategyFacts.
Import ReplitLogin.

Lemma strategy_name_inj (a b : string) :
  "replitauth:" ++ a = "replitauth:" ++ b → a = b.
Proof. simpl. by injection 1. Qed.

(** The registry is indexed by the names of its strategies. *)
Lemma registered_by_fold_named (f : string → Strategy) (xs : list string)
    (registry : gmap string Strategy) (n : string) :
  is_Some (foldl (λ reg x, passport_use (f x) reg) registry xs !! n)
  ↔ is_Some (registry !! n) ∨ ∃ x, x ∈ xs ∧ name (f x) = n.
Proof.
  revert registry. induction xs as [|x xs IH]; intros registry; simpl.
  - split; [by left |]. intros [Hn | (x & Hx & _)]; [done |].
    by apply elem_of_nil in Hx.
  - rewrite IH. unfold passport_use. split.
    + intros [Hn | (y & Hy & Hname)].
      * destruct (decide (name (f x) = n)) as [Heq|Hne].
        -- right. exists x. split; [left | done].
        -- rewrite lookup_insert_ne in Hn by done. by left.
      * right. exists y. split; [by right | done].
    + intros [Hn | (y & Hy & Hname)].
      * left. destruct (decide (name (f x) = n)) as [<-|Hne].
        -- rewrite lookup_insert_eq. eauto.
        -- by rewrite lookup_insert_ne.
      * apply elem_of_cons in Hy as [->|Hy].
        -- left. rewrite <- Hname, lookup_insert_eq. eauto.
        -- right. eauto.
Qed.

(** Which strategy names [setupAuth] leaves registered. *)
Lemma registered_iff (env : ReplitAuth.Env) (h : string) :
  is_Some (ReplitAuth.setupAuth env !! ("replitauth:" ++ h))
  ↔ h ∈ split "," (ReplitAuth.REPLIT_DOMAINS env)
    ∨ (ReplitAuth.is_production env = false ∧ h ∈ ["localhost"; "127.0.0.1"]).
Proof.
  unfold ReplitAuth.setupAuth.
  assert (Hdomains :
    is_Some (foldl (λ reg domain, passport_use (ReplitAuth.domain_strategy domain) reg)
               ∅ (split "," (ReplitAuth.REPLIT_DOMAINS env)) !! ("replitauth:" ++ h))
    ↔ h ∈ split "," (ReplitAuth.REPLIT_DOMAINS env)).
  { rewrite (registered_by_fold_named ReplitAuth.domain_strategy).
    rewrite lookup_empty. split.
    - intros [[? ?] | (d & Hd & Hname)]; [done |].
      apply strategy_name_inj in Hname. by subst d.
    - intros Hh. right. by exists h. }
  destruct (ReplitAuth.is_production env); cbn [negb].
  - rewrite Hdomains. split; [by left | by intros [? | [? _]]].
  - rewrite (registered_by_fold_named ReplitAuth.dev_strategy), Hdomains. split.
    + intros [? | (d & Hd & Hname)]; [by left |].
      apply strategy_name_inj in Hname. subst d. by right.
    + intros [? | [_ Hh]]; [by left |]. right. by exists h.
Qed.

(** Stripping the prefix from a strategy name gives the hostname back. *)
Lemma replace_prefix (h : string) :
  replace_first "replitauth:" "" ("replitauth:" ++ h) = h.
Proof.
  cbn. destruct h; reflexivity.
Qed.

End MoreStrategyFacts.

Import ReplitLogin.

(** [X9] The strategy that the callback handler names for a hostname is
    registered exactly when the hostname is one of [REPLIT_DOMAINS], or the
    deployment is not a production one and the hostname is [localhost] or
    [127.0.0.1]; for any other hostname, [::1] included, the callback names a
    strategy that does not exist. *)
Theorem callback_strategy_registered_iff (env : ReplitAuth.Env) (hostname : string) :
  is_Some (ReplitAuth.setupAuth env !! callback_strategy hostname)
  ↔ hostname ∈ split "," (ReplitAuth.REPLIT_DOMAINS env)
    ∨ (ReplitAuth.is_production env = false
       ∧ hostname ∈ ["localhost"; "127.0.0.1"]).
Proof. apply MoreStrategyFacts.registered_iff. Qed.

(** [X10] In a production deployment, and for every hostname listed in
    [REPLIT_DOMAINS], the login handler names the strategy of the request's
    own hostname ([::1] read as [127.0.0.1]): the fallback to a development
    strategy is never taken. *)
Theorem login_without_fallback (env : ReplitAuth.Env) (req_hostname : string) :
  let hostname := if String.eqb req_hostname "::1" then "127.0.0.1" else req_hostname in
  ReplitAuth.is_production env = true
  ∨ hostname ∈ split "," (ReplitAuth.REPLIT_DOMAINS env) →
  login_strategy env req_hostname = "replitauth:" ++ hostname.
Proof.
  intros hostname Hcase. unfold login_strategy. fold hostname.
  destruct Hcase as [Hprod | Hin].
  - by rewrite Hprod.
  - apply includes_elem_of in Hin. rewrite Hin. by rewrite andb_false_r.
Qed.

Lemma login_without_fallback_witness :
  login_strategy Examples.two_domains "evil.example" = "replitauth:evil.example"
  ∧ login_strategy MoreExamples.dev_one_domain "a.example" = "replitauth:a.example".
Proof.
  split.
  - apply (login_without_fallback Examples.two_domains "evil.example").
    left. reflexivity.
  - apply (login_without_fallback MoreExamples.dev_one_domain "a.example").
    right. apply includes_elem_of. reflexivity.
Defined.

(** [X11] Outside production, for a hostname that is not listed in
    [REPLIT_DOMAINS], the login handler names the strategy of the hostname
    itself when that name contains [localhost] or [127.0.0.1], and the
    strategy of [localhost] otherwise.  The strategy it names is registered
    unless the hostname merely contains one of the two names without being
    one of them. *)
Theorem login_fallback_outside_production (env : ReplitAuth.Env)
    (req_hostname : string) :
  let hostname := if String.eqb req_hostname "::1" then "127.0.0.1" else req_hostname in
  let own := "replitauth:" ++ hostname in
  let looks_local := str_includes own "localhost" || str_includes own "127.0.0.1" in
  ReplitAuth.is_production env = false →
  hostname ∉ split "," (ReplitAuth.REPLIT_DOMAINS env) →
  login_strategy env req_hostname
  = (if looks_local then own else "replitauth:localhost")
  ∧ (is_Some (ReplitAuth.setupAuth env !! login_strategy env req_hostname)
     ↔ hostname ∈ ["localhost"; "127.0.0.1"] ∨ looks_local = false).
Proof.
  intros hostname own looks_local Hprod Hout.
  assert (Hinc : includes (split "," (ReplitAuth.REPLIT_DOMAINS env)) hostname = false).
  { destruct (includes _ hostname) eqn:Hin; [| done].
    by apply includes_elem_of in Hin. }
  assert (Hname : login_strategy env req_hostname
                  = if looks_local then own else "replitauth:localhost").
  { unfold login_strategy. fold hostname. fold own. rewrite Hprod, Hinc.
    cbn [negb andb List.find].
    unfold own at 1. rewrite MoreStrategyFacts.replace_prefix, Hinc.
    fold own. cbn [orb]. fold looks_local.
    destruct looks_local.
    - unfold Middleware.or_else, own. reflexivity.
    - replace (str_includes "replitauth:localhost" "localhost") with true
        by reflexivity.
      rewrite orb_true_r. reflexivity. }
  split; [exact Hname |]. rewrite Hname.
  destruct looks_local.
  - unfold own. rewrite MoreStrategyFacts.registered_iff. split.
    + intros [Hin | [_ Hdev]]; [done | by left].
    + intros [Hdev | ?]; [by right | done].
  - split; [by right |]. intros _.
    apply (MoreStrategyFacts.registered_iff env "localhost").
    right. split; [done | by left].
Qed.

Lemma login_fallback_outside_production_witness :
  login_strategy MoreExamples.dev_one_domain "::1" = "replitauth:127.0.0.1"
  ∧ login_strategy MoreExamples.dev_one_domain "preview.example" = "replitauth:localhost"
  ∧ is_Some (ReplitAuth.setupAuth MoreExamples.dev_one_domain
               !! login_strategy MoreExamples.dev_one_domain "preview.example").
Proof.
  assert (Hout : ∀ h, h ≠ "a.example" →
            h ∉ split "," (ReplitAuth.REPLIT_DOMAINS MoreExamples.dev_one_domain)).
  { intros h Hne Hin. apply list_elem_of_singleton in Hin. done. }
  destruct (login_fallback_outside_production MoreExamples.dev_one_domain "::1")
    as [Hloop _]; [reflexivity | by apply Hout |].
  destruct (login_fallback_outside_production MoreExamples.dev_one_domain
              "preview.example") as [Hprev Hreg]; [reflexivity | by apply Hout |].
  split; [exact Hloop |]. split; [exact Hprev |].
  apply Hreg. by right.
Defined.

(** ** The callback handlers: what a login presupposes *)

(** [X12] In both integrations a callback attaches a user to the request only
    after the session was regenerated and the login succeeded, and then the
    request is on the regenerated identifier; a callback without a verified
    user runs no session operation at all and leaves store and session
    identifier as they were. *)
Theorem callback_attaches_user_only_after_regeneration (auth : Authentication)
    (a : SessionAnswers) (store : gmap string SessionUser) (sid : option string) :
  let replit := ReplitAuth.callback auth a store sid in
  let google := GoogleAuth.callback auth a store sid in
  (∀ r u, r = replit ∨ r = google → cb_user r = Some u →
     auth = AuthSuccess u
     ∧ regenerate a = Ok () ∧ logIn a = Ok ()
     ∧ cb_sid r = Some (new_sid a)
     ∧ cb_ops r = [OpRegenerate; OpLogIn; OpSave])
  ∧ (∀ r, r = replit ∨ r = google → (∀ u, auth ≠ AuthSuccess u) →
       cb_ops r = [] ∧ cb_store r = store ∧ cb_sid r = sid ∧ cb_user r = None).
Proof.
  simpl. split.
  - intros r u [-> | ->] Huser; destruct auth as [err | info | user];
      try discriminate Huser; simpl in *;
      destruct (regenerate a) as [[]|], (logIn a) as [[]|]; try discriminate Huser;
      try (destruct (save a); simpl in *);
      injection Huser as ->; done.
  - intros r [-> | ->] Hno; destruct auth as [err | info | user]; try done;
      by destruct (Hno user).
Qed.

(** ** The first login *)

(** [X13] [verify] fails exactly when the token response carries no ID-token
    claims or the email claim is held by another user; then nothing is
    written.  On the first login of a subject it creates the user record with
    the role [buyer], the profile of the claims and both timestamps set, the
    session tuple mirrors the token response, and GET /api/auth/user with
    that tuple answers 200 with the new record. *)
Theorem verify_first_login (now : Z) (uuid : string) (db : Db)
    (tokens : ReplitAuth.Tokens.t) :
  ((∃ msg, verify now uuid db tokens = Err msg)
   ↔ ReplitAuth.Tokens.claims tokens = None
     ∨ ∃ c, ReplitAuth.Tokens.claims tokens = Some c
            ∧ email_taken (users db) (sub c) (claim c "email") = true)
  ∧ ∀ c, ReplitAuth.Tokens.claims tokens = Some c →
      users db !! sub c = None →
      email_taken (users db) (sub c) (claim c "email") = false →
      let row := {| User.id := sub c;
                    User.email := col_insert (claim c "email");
                    User.firstName := col_insert (claim c "first_name");
                    User.lastName := col_insert (claim c "last_name");
                    User.profileImageUrl := col_insert (claim c "profile_image_url");
                    User.role := buyer;
                    User.phone := None;
                    User.bio := None;
                    User.createdAt := Some now;
                    User.updatedAt := Some now |} in
      let user := {| claims := Some c;
                     access_token := Some (ReplitAuth.Tokens.access_token tokens);
                     refresh_token := ReplitAuth.Tokens.refresh_token tokens;
                     expires_at := Some (exp c) |} in
      let db' := set_users db (<[sub c := row]> (users db)) in
      verify now uuid db tokens = Ok (user, db')
      ∧ MoreRoutes.get_auth_user db' user = SendJson 200 (user_json row).
Proof.
  split.
  - unfold verify, ReplitAuth.upsertUser.
    destruct (ReplitAuth.Tokens.claims tokens) as [c|] eqn:Hc.
    + simpl. rewrite UserFacts.upsertUser_result. simpl.
      destruct (email_taken _ _ _) eqn:Htaken; split.
      * intros _. right. by exists c.
      * intros _. eauto.
      * by intros [msg ?].
      * intros [? | (c' & Hc' & Ht)]; [done |]. injection Hc' as <-. congruence.
    + split; [by left | eauto].
  - intros c Hc Hnew Hfree row user db'.
    unfold verify, ReplitAuth.upsertUser. rewrite Hc. simpl.
    rewrite UserFacts.upsertUser_result. simpl. rewrite Hfree, Hnew.
    split.
    + unfold ReplitAuth.updateUserSession. by rewrite Hc.
    + unfold MoreRoutes.get_auth_user. simpl. unfold Storage.getUser. simpl.
      by rewrite lookup_insert_eq.
Qed.

Lemma verify_first_login_witness :
  ∃ user db',
    verify 100 "uuid-1" Examples.db_1 MoreExamples.login_tokens = Ok (user, db')
    ∧ expires_at user = Some 3600
    ∧ ∃ row, users db' !! "u9" = Some row
             ∧ User.role row = buyer
             ∧ User.email row = Some "zoe@example.com"
             ∧ MoreRoutes.get_auth_user db' user = SendJson 200 (user_json row).
Proof.
  destruct (verify_first_login 100 "uuid-1" Examples.db_1 MoreExamples.login_tokens)
    as [_ Hfirst].
  destruct (Hfirst {| sub := "u9"; exp := 3600;
                      extra := {[ "email" := "zoe@example.com";
                                  "first_name" := "Zoe" ]} |})
    as [Hverify Hget]; [reflexivity | reflexivity | by vm_compute |].
  eexists _, _. split; [exact Hverify |]. split; [reflexivity |].
  eexists. split; [apply lookup_insert_eq |].
  split; [reflexivity |]. split; [by vm_compute | exact Hget].
Defined.

(** ** The users table: round trip, frame, idempotence, unique emails *)

(** [X14] What a successful upsert writes can be read back under the primary key;
    the upsert changes no other user, no favorite and no property; and when
    every row is stored under its id, so is every row afterwards. *)
Theorem upsertUser_then_getUser (now : Z) (uuid : string) (db db' : Db)
    (d : UpsertUser.t) (row : User.t) :
  Storage.upsertUser now uuid db d = Ok (row, db') →
  let key := default uuid (UpsertUser.id d) in
  Storage.getUser db' key = Ok (Some row)
  ∧ (∀ other, other ≠ key → Storage.getUser db' other = Storage.getUser db other)
  ∧ favorites db' = favorites db
  ∧ properties db' = properties db
  ∧ (keyed_by_id (users db) → User.id row = key ∧ keyed_by_id (users db')).
Proof.
  rewrite UserFacts.upsertUser_result. simpl.
  destruct (email_taken _ _ _); [done |]. injection 1 as <- <-.
  unfold Storage.getUser. simpl. rewrite lookup_insert_eq.
  split; [done |]. split.
  { intros other Hne. by rewrite lookup_insert_ne. }
  split; [done |]. split; [done |].
  intros Hkeyed.
  set (key := default uuid (UpsertUser.id d)).
  assert (Hid : User.id (match users db !! key with
                         | Some old => updated_user now d old
                         | None => inserted_user key now d
                         end) = key).
  { destruct (users db !! key) as [old|] eqn:Hold; [| done].
    simpl. subst key. destruct (UpsertUser.id d); [done |].
    simpl in *. by apply Hkeyed. }
  split; [exact Hid |].
  intros k u Hk. destruct (decide (k = key)) as [->|Hne].
  - rewrite lookup_insert_eq in Hk. by injection Hk as <-.
  - rewrite lookup_insert_ne in Hk by done. by apply Hkeyed.
Qed.

Lemma upsertUser_then_getUser_witness :
  ∃ row db',
    ReplitAuth.upsertUser 100 "uuid-1" Examples.db_1 Examples.claims_with_role
    = Ok (row, db')
    ∧ Storage.getUser db' "u1" = Ok (Some row)
    ∧ Storage.getUser db' "u2" = Ok (Some Examples.buyer_u2).
Proof.
  destruct (ReplitAuth.upsertUser 100 "uuid-1" Examples.db_1 Examples.claims_with_role)
    as [[row db']|msg] eqn:Hup; [| by vm_compute in Hup].
  destruct (upsertUser_then_getUser 100 "uuid-1" Examples.db_1 db' _ row Hup)
    as (Hget & Hother & _).
  exists row, db'. split; [done |]. split; [exact Hget |].
  rewrite (Hother "u2"); [reflexivity | discriminate].
Defined.

(** [X15] An upsert that names its primary key is idempotent: repeated at the same
    time on the database it produced, it succeeds again, returns the same
    row and leaves that database as it is. *)
Theorem upsertUser_idempotent (now : Z) (uuid uuid' : string) (db db' : Db)
    (d : UpsertUser.t) (row : User.t) (key : string) :
  UpsertUser.id d = Some key →
  Storage.upsertUser now uuid db d = Ok (row, db') →
  Storage.upsertUser now uuid' db' d = Ok (row, db').
Proof.
  intros Hid. rewrite !UserFacts.upsertUser_result. rewrite Hid. simpl.
  destruct (email_taken (users db) key (UpsertUser.email d)) eqn:Htaken; [done |].
  injection 1 as <- <-. simpl.
  assert (Hsame : ∀ r, email_taken (<[key := r]> (users db)) key (UpsertUser.email d)
                       = false).
  { intros r. unfold email_taken in *. destruct (UpsertUser.email d) as [ | | e]; try done.
    apply bool_decide_eq_false. apply bool_decide_eq_false in Htaken.
    intros (k & u & Hk & Hne & He). apply Htaken. exists k, u.
    rewrite lookup_insert_ne in Hk by done. done. }
  rewrite Hsame, lookup_insert_eq, insert_insert_eq.
  assert (Hrow : ∀ old, updated_user now d
                          (match old with
                           | Some o => updated_user now d o
                           | None => inserted_user key now d
                           end)
                        = match old with
                          | Some o => updated_user now d o
                          | None => inserted_user key now d
                          end).
  { intros [o|]; unfold updated_user, inserted_user; simpl; rewrite Hid; simpl;
      f_equal;
      first [ by destruct (UpsertUser.role d)
            | by match goal with |- col_set ?c _ = _ => destruct c end ]. }
  by rewrite Hrow.
Qed.

Lemma upsertUser_idempotent_witness :
  ∃ row db',
    ReplitAuth.upsertUser 100 "uuid-1" Examples.db_1 Examples.claims_with_role
    = Ok (row, db')
    ∧ ReplitAuth.upsertUser 100 "uuid-2" db' Examples.claims_with_role = Ok (row, db').
Proof.
  destruct (ReplitAuth.upsertUser 100 "uuid-1" Examples.db_1 Examples.claims_with_role)
    as [[row db']|msg] eqn:Hup; [| by vm_compute in Hup].
  exists row, db'. split; [done |].
  by apply (upsertUser_idempotent 100 "uuid-1" "uuid-2" Examples.db_1 db' _ row "u1").
Defined.

(** [X16] The upsert keeps the rule that no two users hold the same email. *)
Theorem upsertUser_keeps_unique_emails (now : Z) (uuid : string) (db db' : Db)
    (d : UpsertUser.t) (row : User.t) :
  unique_emails (users db) →
  Storage.upsertUser now uuid db d = Ok (row, db') →
  unique_emails (users db').
Proof.
  intros Huniq. rewrite UserFacts.upsertUser_result. simpl.
  set (key := default uuid (UpsertUser.id d)).
  destruct (email_taken (users db) key (UpsertUser.email d)) eqn:Htaken; [done |].
  injection 1 as <- <-. simpl.
  set (new := match users db !! key with
              | Some old => updated_user now d old
              | None => inserted_user key now d
              end).
  (* another row never holds the email of the written row *)
  assert (Hnew : ∀ k u e, k ≠ key → users db !! k = Some u →
                   User.email new = Some e → User.email u = Some e → False).
  { intros k u e Hne Hk Hnew_e Hu_e. subst new.
    unfold email_taken in Htaken.
    destruct (UpsertUser.email d) as [ | | v] eqn:Hd.
    - destruct (users db !! key) as [old|] eqn:Hold; simpl in Hnew_e;
        rewrite Hd in Hnew_e; simpl in Hnew_e; [| done].
      apply Hne. by apply (Huniq k key u old e).
    - destruct (users db !! key); simpl in Hnew_e; rewrite Hd in Hnew_e; done.
    - apply bool_decide_eq_false in Htaken. apply Htaken. exists k, u.
      split; [done |]. split; [done |].
      destruct (users db !! key); simpl in Hnew_e; rewrite Hd in Hnew_e;
        simpl in Hnew_e; congruence. }
  intros k1 k2 u1 u2 e H1 H2 He1 He2.
  destruct (decide (k1 = key)) as [->|Hk1], (decide (k2 = key)) as [->|Hk2]; [done | | |].
  - rewrite lookup_insert_eq in H1. injection H1 as <-.
    rewrite lookup_insert_ne in H2 by done. by destruct (Hnew k2 u2 e).
  - rewrite lookup_insert_eq in H2. injection H2 as <-.
    rewrite lookup_insert_ne in H1 by done. by destruct (Hnew k1 u1 e).
  - rewrite lookup_insert_ne in H1, H2 by done. by apply (Huniq k1 k2 u1 u2 e).
Qed.

Lemma upsertUser_keeps_unique_emails_witness :
  ∃ row db',
    ReplitAuth.upsertUser 100 "uuid-1" MoreExamples.db_one_user
      Examples.claims_with_role = Ok (row, db')
    ∧ unique_emails (users db').
Proof.
  destruct (ReplitAuth.upsertUser 100 "uuid-1" MoreExamples.db_one_user
              Examples.claims_with_role) as [[row db']|msg] eqn:Hup;
    [| by vm_compute in Hup].
  exists row, db'. split; [done |].
  eapply (upsertUser_keeps_unique_emails 100 "uuid-1" MoreExamples.db_one_user db');
    [| exact Hup].
  intros k1 k2 u1 u2 e H1 H2 _ _. simpl in H1, H2.
  apply lookup_singleton_Some in H1 as [<- _].
  by apply lookup_singleton_Some in H2 as [<- _].
Defined.

(** ** The favorites table: round trips, errors, removal *)

Module MoreFavoriteFacts.

Lemma same_pair_false (userId propertyId : string) (f : Favorite.t) :
  same_pair userId propertyId f = false ↔ pair_of f ≠ (userId, propertyId).
Proof.
  rewrite <- FavoriteFacts.same_pair_true. by destruct (same_pair _ _ f).
Qed.

(** No row of the pair: the select of [getFavorite] is empty, and the delete
    of [removeFavorite] keeps every row. *)
Lemma no_pair_filters (fs : list Favorite.t) (userId propertyId : string) :
  existsb (same_pair userId propertyId) fs = false →
  List.filter (same_pair userId propertyId) fs = []
  ∧ List.filter (λ f, negb (same_pair userId propertyId f)) fs = fs.
Proof.
  induction fs as [|g fs IH]; [done |]. simpl.
  intros [Hg Hfs]%orb_false_iff. rewrite Hg. simpl.
  destruct (IH Hfs) as [-> ->]. done.
Qed.

(** Without a clash, no row has the pair of the insert. *)
Lemma no_conflict_no_pair (uuid : string) (ins : InsertFavorite.t)
    (fs : list Favorite.t) :
  existsb (conflicts uuid ins) fs = false →
  existsb (same_pair (InsertFavorite.userId ins) (InsertFavorite.propertyId ins)) fs
  = false.
Proof.
  induction fs as [|g fs IH]; [done |]. simpl.
  intros [Hg Hfs]%orb_false_iff. unfold conflicts in Hg.
  apply orb_false_iff in Hg as [_ Hg]. rewrite Hg. simpl. by apply IH.
Qed.

(** The rows deleted are the rows selected. *)
Lemma removed_count (fs : list Favorite.t) (userId propertyId : string) :
  (length fs
   - length (List.filter (λ f, negb (same_pair userId propertyId f)) fs))%nat
  = length (List.filter (same_pair userId propertyId) fs).
Proof.
  pose proof (filter_length (same_pair userId propertyId) fs). lia.
Qed.

Lemma filter_negb_idemp (fs : list Favorite.t) (userId propertyId : string) :
  existsb (same_pair userId propertyId)
    (List.filter (λ f, negb (same_pair userId propertyId f)) fs) = false.
Proof.
  induction fs as [|g fs IH]; [done |]. simpl.
  destruct (same_pair userId propertyId g) eqn:Hg; simpl; [done |].
  by rewrite Hg.
Qed.

(** What a successful [addFavorite] leaves behind. *)
Lemma addFavorite_found (now : Z) (uuid : string) (db db' : Db)
    (ins : InsertFavorite.t) (f : Favorite.t) :
  Storage.addFavorite now uuid db ins = Ok (f, db') →
  Storage.getFavorite db' (InsertFavorite.userId ins) (InsertFavorite.propertyId ins)
  = Ok (Some f)
  ∧ pair_of f = (InsertFavorite.userId ins, InsertFavorite.propertyId ins)
  ∧ (∀ g, g ∈ favorites db → g ∈ favorites db')
  ∧ users db' = users db
  ∧ properties db' = properties db.
Proof.
  unfold Storage.addFavorite, Storage.getFavorite.
  destruct (existsb (conflicts uuid ins) (favorites db)) eqn:Hconf.
  - destruct (List.filter _ (favorites db)) as [|g gs] eqn:Hsel; [done |].
    simpl. injection 1 as <- <-. rewrite Hsel. simpl.
    split; [done |]. split; [| done].
    assert (Hg : In g (List.filter
      (same_pair (InsertFavorite.userId ins) (InsertFavorite.propertyId ins))
      (favorites db))) by (rewrite Hsel; by left).
    apply filter_In in Hg as [_ Hsame]. by apply FavoriteFacts.same_pair_true.
  - destruct (references_ok db ins); [| done].
    injection 1 as <- <-. simpl.
    apply no_conflict_no_pair in Hconf.
    destruct (no_pair_filters _ _ _ Hconf) as [Hnone _].
    rewrite List.filter_app, Hnone. simpl.
    unfold same_pair at 1. simpl. rewrite !String.eqb_refl. simpl.
    repeat split; try done. intros g Hg. apply elem_of_app. by left.
Qed.

(** What [removeFavorite] does, in full. *)
Lemma removeFavorite_spec (db : Db) (userId propertyId : string) :
  ∃ removed db',
    Storage.removeFavorite db userId propertyId = Ok (removed, db')
    ∧ (removed = true
       ↔ ∃ f, f ∈ favorites db ∧ pair_of f = (userId, propertyId))
    ∧ Storage.getFavorite db' userId propertyId = Ok None
    ∧ (∀ g, g ∈ favorites db'
            ↔ g ∈ favorites db ∧ pair_of g ≠ (userId, propertyId))
    ∧ users db' = users db
    ∧ properties db' = properties db
    ∧ Storage.removeFavorite db' userId propertyId = Ok (false, db').
Proof.
  unfold Storage.removeFavorite. eexists _, _. split; [reflexivity |].
  rewrite removed_count.
  pose proof (filter_negb_idemp (favorites db) userId propertyId)
    as Hgone.
  destruct (no_pair_filters _ _ _ Hgone) as [Hnone Hsame].
  split; [| split; [| split; [| split; [| split]]]].
  - rewrite bool_decide_eq_true. split.
    + intros Hlen.
      destruct (List.filter (same_pair userId propertyId) (favorites db))
        as [|f fs] eqn:Hsel; [simpl in Hlen; lia |].
      assert (Hf : In f (List.filter (same_pair userId propertyId) (favorites db)))
        by (rewrite Hsel; by left).
      apply filter_In in Hf as [Hin Hpair]. exists f.
      split; [by apply list_elem_of_In | by apply FavoriteFacts.same_pair_true].
    + intros (f & Hin & Hpair).
      assert (Hf : In f (List.filter (same_pair userId propertyId) (favorites db))).
      { apply filter_In. split; [by apply list_elem_of_In |].
        by apply FavoriteFacts.same_pair_true. }
      destruct (List.filter (same_pair userId propertyId) (favorites db));
        [done | simpl; lia].
  - unfold Storage.getFavorite. simpl. by rewrite Hnone.
  - intros g. simpl. rewrite !list_elem_of_In, filter_In, negb_true_iff.
    by rewrite same_pair_false.
  - done.
  - done.
  - simpl. rewrite Hsame. rewrite Nat.sub_diag. done.
Qed.

End MoreFavoriteFacts.

(** [X17] The favorite that [addFavorite] returns is the one [getFavorite] finds
    afterwards for the user and the property of the insert; it has that user
    and that property; no favorite that was there is lost, and users and
    properties are as they were. *)
Theorem addFavorite_then_getFavorite (now : Z) (uuid : string) (db db' : Db)
    (ins : InsertFavorite.t) (f : Favorite.t) :
  Storage.addFavorite now uuid db ins = Ok (f, db') →
  Storage.getFavorite db' (InsertFavorite.userId ins) (InsertFavorite.propertyId ins)
  = Ok (Some f)
  ∧ pair_of f = (InsertFavorite.userId ins, InsertFavorite.propertyId ins)
  ∧ (∀ g, g ∈ favorites db → g ∈ favorites db')
  ∧ users db' = users db
  ∧ properties db' = properties db.
Proof. apply MoreFavoriteFacts.addFavorite_found. Qed.

Lemma addFavorite_then_getFavorite_witness :
  let ins := {| InsertFavorite.userId := "u1"; InsertFavorite.propertyId := "p2" |} in
  ∃ f db',
    Storage.addFavorite 50 "f2" Examples.db_1 ins = Ok (f, db')
    ∧ Storage.getFavorite db' "u1" "p2" = Ok (Some f)
    ∧ Examples.favorite_1 ∈ favorites db'.
Proof.
  intros ins.
  destruct (Storage.addFavorite 50 "f2" Examples.db_1 ins) as [[f db']|msg] eqn:Hadd;
    [| by vm_compute in Hadd].
  destruct (addFavorite_then_getFavorite 50 "f2" Examples.db_1 db' ins f Hadd)
    as (Hget & _ & Hkept & _).
  exists f, db'. split; [done |]. split; [exact Hget |].
  apply Hkept. by apply list_elem_of_singleton.
Defined.

(** [X18] [addFavorite] throws exactly when the user has no favorite for the
    property yet and either the new identifier clashes with the identifier of
    a stored favorite or the user or the property does not exist. *)
Theorem addFavorite_fails_iff (now : Z) (uuid : string) (db : Db)
    (ins : InsertFavorite.t) :
  (∃ msg, Storage.addFavorite now uuid db ins = Err msg)
  ↔ existsb (same_pair (InsertFavorite.userId ins) (InsertFavorite.propertyId ins))
      (favorites db) = false
    ∧ (existsb (λ f, String.eqb (Favorite.id f) uuid) (favorites db) = true
       ∨ InsertFavorite.userId ins ∉ dom (users db)
       ∨ InsertFavorite.propertyId ins ∉ properties db).
Proof.
  unfold Storage.addFavorite, Storage.getFavorite.
  set (u := InsertFavorite.userId ins). set (p := InsertFavorite.propertyId ins).
  assert (Hsplit : existsb (conflicts uuid ins) (favorites db)
                   = existsb (λ f, String.eqb (Favorite.id f) uuid) (favorites db)
                     || existsb (same_pair u p) (favorites db)).
  { induction (favorites db) as [|g fs IH]; [done |]. simpl. rewrite IH.
    unfold conflicts. fold u p.
    destruct (String.eqb (Favorite.id g) uuid), (same_pair u p g); simpl;
      try done; by rewrite ?orb_true_r. }
  rewrite Hsplit.
  destruct (existsb (same_pair u p) (favorites db)) eqn:Hpair.
  - rewrite orb_true_r.
    apply existsb_exists in Hpair as (g & Hin & Hg).
    destruct (List.filter (same_pair u p) (favorites db)) as [|h hs] eqn:Hsel.
    + exfalso. assert (In g (List.filter (same_pair u p) (favorites db)))
        by (apply filter_In; done). by rewrite Hsel in *.
    + simpl. split; [by intros [msg ?] | by intros [? _]].
  - rewrite orb_false_r.
    destruct (MoreFavoriteFacts.no_pair_filters _ _ _ Hpair) as [Hnone _].
    destruct (existsb (λ f, String.eqb (Favorite.id f) uuid) (favorites db)).
    + rewrite Hnone. simpl. split; [intros _; split; [done | by left] | eauto].
    + unfold references_ok. fold u p.
      destruct (decide (u ∈ dom (users db))) as [Hu|Hu];
        [rewrite (bool_decide_eq_true_2 _ Hu) | rewrite (bool_decide_eq_false_2 _ Hu)];
        simpl.
      * destruct (decide (p ∈ properties db)) as [Hp|Hp];
          [rewrite (bool_decide_eq_true_2 _ Hp) | rewrite (bool_decide_eq_false_2 _ Hp)].
        -- split; [by intros [msg ?] |]. intros [_ [? | [? | ?]]]; done.
        -- split; [intros _; split; [done | by right; right] | eauto].
      * split; [intros _; split; [done | by right; left] | eauto].
Qed.

(** [X19] [removeFavorite] never throws.  It answers [true] exactly when the user
    had a favorite for the property; afterwards [getFavorite] finds none for
    them; the favorites left are exactly the stored ones of other users or
    other properties; users and properties are as they were; and a second
    removal answers [false] and changes nothing. *)
Theorem removeFavorite_removes_exactly (db : Db) (userId propertyId : string) :
  ∃ removed db',
    Storage.removeFavorite db userId propertyId = Ok (removed, db')
    ∧ (removed = true
       ↔ ∃ f, f ∈ favorites db ∧ pair_of f = (userId, propertyId))
    ∧ Storage.getFavorite db' userId propertyId = Ok None
    ∧ (∀ g, g ∈ favorites db'
            ↔ g ∈ favorites db ∧ pair_of g ≠ (userId, propertyId))
    ∧ users db' = users db
    ∧ properties db' = properties db
    ∧ Storage.removeFavorite db' userId propertyId = Ok (false, db').
Proof. apply MoreFavoriteFacts.removeFavorite_spec. Qed.

(** [X20] Adding a favorite for a property the user had none for, and removing it
    again, gives back the database there was before. *)
Theorem add_then_remove_restores (now : Z) (uuid : string) (db db' : Db)
    (ins : InsertFavorite.t) (f : Favorite.t) :
  existsb (same_pair (InsertFavorite.userId ins) (InsertFavorite.propertyId ins))
    (favorites db) = false →
  Storage.addFavorite now uuid db ins = Ok (f, db') →
  Storage.removeFavorite db'
    (InsertFavorite.userId ins) (InsertFavorite.propertyId ins) = Ok (true, db).
Proof.
  intros Hpair. unfold Storage.addFavorite, Storage.getFavorite.
  destruct (MoreFavoriteFacts.no_pair_filters _ _ _ Hpair) as [Hnone Hall].
  destruct (existsb (conflicts uuid ins) (favorites db)); [by rewrite Hnone |].
  destruct (references_ok db ins); [| done].
  injection 1 as <- <-.
  set (new := {| Favorite.id := uuid;
                 Favorite.userId := InsertFavorite.userId ins;
                 Favorite.propertyId := InsertFavorite.propertyId ins;
                 Favorite.createdAt := Some now |}).
  assert (Hkept : List.filter
                    (λ g, negb (same_pair (InsertFavorite.userId ins)
                                  (InsertFavorite.propertyId ins) g))
                    (favorites db ++ [new]) = favorites db).
  { rewrite List.filter_app, Hall. cbn [List.filter].
    rewrite (proj2 (FavoriteFacts.same_pair_true (InsertFavorite.userId ins)
                      (InsertFavorite.propertyId ins) new) eq_refl).
    apply app_nil_r. }
  unfold Storage.removeFavorite. cbn [favorites set_favorites users properties].
  rewrite Hkept, length_app. cbn [length].
  replace (length (favorites db) + 1 - length (favorites db))%nat with 1%nat by lia.
  by destruct db.
Qed.

Lemma add_then_remove_restores_witness :
  let ins := {| InsertFavorite.userId := "u1"; InsertFavorite.propertyId := "p2" |} in
  ∃ f db',
    Storage.addFavorite 50 "f2" Examples.db_1 ins = Ok (f, db')
    ∧ Storage.removeFavorite db' "u1" "p2" = Ok (true, Examples.db_1).
Proof.
  intros ins.
  destruct (Storage.addFavorite 50 "f2" Examples.db_1 ins) as [[f db']|msg] eqn:Hadd;
    [| by vm_compute in Hadd].
  exists f, db'. split; [done |].
  by apply (add_then_remove_restores 50 "f2" Examples.db_1 db' ins f).
Defined.

(** [X21] No run of [addFavorite] and [removeFavorite] calls gives two favorites
    the same identifier: an insert whose identifier is taken is skipped. *)
Theorem favorites_keep_unique_ids (calls : list FavoriteCall) (db : Db) :
  unique_ids (favorites db) → unique_ids (favorites (after_calls db calls)).
Proof.
  unfold after_calls. revert db.
  induction calls as [|call calls IH]; intros db Hnd; [done |].
  simpl. apply IH. clear IH. unfold unique_ids in *.
  destruct call as [now uuid ins | userId propertyId]; simpl.
  - unfold Storage.addFavorite, Storage.getFavorite.
    destruct (existsb (conflicts uuid ins) (favorites db)) eqn:Hconf.
    + by destruct (List.filter _ (favorites db)).
    + destruct (references_ok db ins); [| done]. simpl.
      rewrite fmap_app. apply NoDup_app. split; [done |].
      split; [| apply NoDup_singleton].
      intros i (g & -> & Hg)%list_elem_of_fmap_1 Heq%list_elem_of_singleton.
      simpl in Heq.
      assert (Hclash : existsb (conflicts uuid ins) (favorites db) = true).
      { apply existsb_exists. exists g. split; [by apply list_elem_of_In |].
        unfold conflicts. rewrite Heq, String.eqb_refl. done. }
      by rewrite Hclash in Hconf.
  - induction (favorites db) as [|g fs IHfs]; [done |].
    rewrite fmap_cons in Hnd. apply NoDup_cons in Hnd as [Hg Hfs]. simpl.
    destruct (negb (same_pair userId propertyId g)); [| by apply IHfs].
    rewrite fmap_cons. apply NoDup_cons. split; [| by apply IHfs].
    intros (h & Hh & Hin)%list_elem_of_fmap_1. apply Hg. rewrite Hh.
    apply list_elem_of_fmap_2. apply list_elem_of_In in Hin.
    apply filter_In in Hin as [Hin _]. by apply list_elem_of_In.
Qed.

Lemma favorites_keep_unique_ids_witness :
  let ins := {| InsertFavorite.userId := "u1"; InsertFavorite.propertyId := "p2" |} in
  unique_ids
    (favorites (after_calls Examples.db_1
                  [CallAdd 50 "f1" ins; CallAdd 51 "f2" ins; CallRemove "u2" "p1"])).
Proof.
  intros ins. apply favorites_keep_unique_ids. apply NoDup_singleton.
Defined.

(** ** The favorites routes *)

Import MoreRoutes.

Module MoreRouteFacts.

(** The handler of POST /api/favorites past the validation. *)
Lemma post_favorite_valid (now : Z) (uuid : string) (db : Db)
    (user : SessionUser) (c : Claims) (body : Body) (data : InsertFavorite.t) :
  claims user = Some c → safeParse body = inl data →
  post_favorite now uuid db user body
  = match Storage.addFavorite now uuid db
            {| InsertFavorite.userId := sub c;
               InsertFavorite.propertyId := InsertFavorite.propertyId data |} with
    | Ok (favorite, db') => (SentFavorite 201 favorite, db')
    | Err _ => (Sent (message 500 "Failed to add favorite"), db)
    end.
Proof. intros Hc Hparse. unfold post_favorite. by rewrite Hc, Hparse. Qed.

(** A 201 comes from a valid body and a successful [addFavorite]. *)
Lemma post_favorite_created (now : Z) (uuid : string) (db db' : Db)
    (user : SessionUser) (c : Claims) (body : Body) (f : Favorite.t) :
  claims user = Some c →
  post_favorite now uuid db user body = (SentFavorite 201 f, db') →
  ∃ data,
    safeParse body = inl data
    ∧ Storage.addFavorite now uuid db
        {| InsertFavorite.userId := sub c;
           InsertFavorite.propertyId := InsertFavorite.propertyId data |}
      = Ok (f, db').
Proof.
  intros Hc. unfold post_favorite. rewrite Hc.
  destruct (safeParse body) as [data|errors]; [| done].
  intros Hpost. exists data. split; [done |]. simpl in *.
  destruct (Storage.addFavorite _ _ _ _) as [[f0 db0]|msg]; [| done].
  by injection Hpost as -> ->.
Qed.

Lemma safeParse_valid_iff (body : Body) :
  (∃ data, safeParse body = inl data)
  ↔ ∃ fields u p,
      body = BodyObject fields
      ∧ fields !! "userId" = Some (VString u)
      ∧ fields !! "propertyId" = Some (VString p).
Proof.
  split.
  - intros [data Hparse]. destruct body as [ | | fields]; try done.
    exists fields. simpl in Hparse. unfold string_key in Hparse.
    destruct (fields !! "userId") as [[ | u | ]|]; try (by repeat case_match);
    destruct (fields !! "propertyId") as [[ | p | ]|]; try done.
    by exists u, p.
  - intros (fields & u & p & -> & Hu & Hp). simpl. unfold string_key.
    rewrite Hu, Hp. eauto.
Qed.

End MoreRouteFacts.

(** [X22] POST /api/favorites stores the favorite for the subject of the session:
    the [userId] of the body has no influence on the answer or on what is
    stored, and a created favorite belongs to the caller and to the property
    the body names. *)
Theorem post_favorite_belongs_to_caller (now : Z) (uuid : string) (db : Db)
    (user : SessionUser) (c : Claims) :
  claims user = Some c →
  (∀ fields x y,
     post_favorite now uuid db user (BodyObject (<["userId" := VString x]> fields))
     = post_favorite now uuid db user (BodyObject (<["userId" := VString y]> fields)))
  ∧ (∀ fields f db',
       post_favorite now uuid db user (BodyObject fields) = (SentFavorite 201 f, db') →
       Favorite.userId f = sub c
       ∧ fields !! "propertyId" = Some (VString (Favorite.propertyId f))
       ∧ f ∈ favorites db').
Proof.
  intros Hc. split.
  - intros fields x y. unfold post_favorite. rewrite Hc. simpl.
    unfold string_key. rewrite !lookup_insert_eq.
    rewrite !lookup_insert_ne by done. by destruct (fields !! "propertyId") as [[]|].
  - intros fields f db' Hpost.
    destruct (MoreRouteFacts.post_favorite_created _ _ _ _ _ _ _ _ Hc Hpost)
      as (data & Hparse & Hadd).
    destruct (MoreFavoriteFacts.addFavorite_found _ _ _ _ _ _ Hadd)
      as (Hget & Hpair & _).
    injection Hpair as Hu Hp. simpl in Hu, Hp.
    split; [done |]. split.
    + simpl in Hparse. unfold string_key in Hparse.
      destruct (fields !! "userId") as [[ | u | ]|]; try (by repeat case_match);
      destruct (fields !! "propertyId") as [[ | p | ]|]; try done.
      injection Hparse as <-. simpl in Hp. by rewrite Hp.
    + unfold Storage.getFavorite in Hget. injection Hget as Hhead.
      apply head_Some_elem_of in Hhead. apply list_elem_of_In in Hhead.
      apply filter_In in Hhead as [Hin _]. by apply list_elem_of_In.
Qed.

Lemma post_favorite_belongs_to_caller_witness :
  let user := Examples.session_for "u1" (Some 3600) None in
  ∃ f db',
    post_favorite 50 "f2" Examples.db_1 user
      (BodyObject (MoreExamples.favorite_body "u2" "p2")) = (SentFavorite 201 f, db')
    ∧ Favorite.userId f = "u1"
    ∧ f ∈ favorites db'.
Proof.
  intros user.
  destruct (post_favorite_belongs_to_caller 50 "f2" Examples.db_1 user
              (Examples.claims_of "u1" 3600)) as [_ Hown]; [reflexivity |].
  destruct (post_favorite 50 "f2" Examples.db_1 user
              (BodyObject (MoreExamples.favorite_body "u2" "p2")))
    as [answer db'] eqn:Hpost.
  assert (Hanswer : ∃ f, answer = SentFavorite 201 f).
  { vm_compute in Hpost. injection Hpost as <- _. eauto. }
  destruct Hanswer as [f ->].
  destruct (Hown _ f db' Hpost) as (Hu & _ & Hin).
  exists f, db'. by repeat split.
Defined.

(** [X23] POST /api/favorites answers 400 "Invalid favorite data", and stores
    nothing, exactly when the body is not an object that gives both [userId]
    and [propertyId] as strings: a body without [userId] is refused although
    the handler never uses that value. *)
Theorem post_favorite_validation (now : Z) (uuid : string) (db : Db)
    (user : SessionUser) (c : Claims) (body : Body) :
  claims user = Some c →
  ((∃ errors, post_favorite now uuid db user body
              = (SentInvalid "Invalid favorite data" errors, db))
   ↔ ¬ ∃ fields u p,
         body = BodyObject fields
         ∧ fields !! "userId" = Some (VString u)
         ∧ fields !! "propertyId" = Some (VString p))
  ∧ (∀ answer db', post_favorite now uuid db user body = (answer, db') →
       (∀ message errors, answer ≠ SentInvalid message errors) ∨ db' = db).
Proof.
  intros Hc. rewrite <- MoreRouteFacts.safeParse_valid_iff.
  unfold post_favorite. rewrite Hc.
  destruct (safeParse body) as [data|errors]; simpl.
  - split.
    + split; [| intros Hno; destruct Hno; eauto].
      intros [errors Hpost].
      by destruct (Storage.addFavorite _ _ _ _) as [[? ?]|?].
    + intros answer db' Hpost. left. intros message errors ->.
      by destruct (Storage.addFavorite _ _ _ _) as [[? ?]|?].
  - split.
    + split; [by intros _ [data ?] | eauto].
    + intros answer db'. injection 1 as <- <-. by right.
Qed.

Lemma post_favorite_validation_witness :
  let user := Examples.session_for "u1" (Some 3600) None in
  ∃ errors,
    post_favorite 50 "f2" Examples.db_1 user
      (BodyObject {[ "propertyId" := VString "p2" ]})
    = (SentInvalid "Invalid favorite data" errors, Examples.db_1).
Proof.
  intros user.
  destruct (post_favorite_validation 50 "f2" Examples.db_1 user
              (Examples.claims_of "u1" 3600)
              (BodyObject {[ "propertyId" := VString "p2" ]})) as [Hiff _];
    [reflexivity |].
  apply Hiff. intros (fields & u & p & Hbody & Hu & _).
  injection Hbody as <-. vm_compute in Hu. discriminate Hu.
Defined.

(** [X24] POST /api/favorites is idempotent: after a 201, the same request at any
    later time answers 201 with the same favorite and stores nothing new,
    and GET /api/favorites/check for that property answers [true]. *)
Theorem post_favorite_twice (now now' : Z) (uuid uuid' : string) (db db' : Db)
    (user : SessionUser) (c : Claims) (body : Body) (f : Favorite.t) :
  claims user = Some c →
  post_favorite now uuid db user body = (SentFavorite 201 f, db') →
  post_favorite now' uuid' db' user body = (SentFavorite 201 f, db')
  ∧ check_favorite db' user (Favorite.propertyId f) = SentIsFavorite true.
Proof.
  intros Hc Hpost.
  destruct (MoreRouteFacts.post_favorite_created _ _ _ _ _ _ _ _ Hc Hpost)
    as (data & Hparse & Hadd).
  destruct (MoreFavoriteFacts.addFavorite_found _ _ _ _ _ _ Hadd)
    as (Hget & Hpair & _).
  assert (Hin : f ∈ favorites db').
  { unfold Storage.getFavorite in Hget. injection Hget as Hhead.
    apply head_Some_elem_of in Hhead. apply list_elem_of_In in Hhead.
    apply filter_In in Hhead as [Hin _]. by apply list_elem_of_In. }
  split.
  - rewrite (MoreRouteFacts.post_favorite_valid _ _ _ _ c _ data Hc Hparse).
    unfold Storage.addFavorite.
    rewrite (FavoriteFacts.conflict_of_existing uuid' _ _ f Hin Hpair).
    by rewrite Hget.
  - unfold check_favorite. rewrite Hc.
    injection Hpair as _ Hp. rewrite Hp.
    change (IStorage.getFavorite db' (sub c) (InsertFavorite.propertyId data))
      with (Storage.getFavorite db' (sub c) (InsertFavorite.propertyId data)).
    cbn [InsertFavorite.userId InsertFavorite.propertyId] in Hget.
    by rewrite Hget.
Qed.

Lemma post_favorite_twice_witness :
  let user := Examples.session_for "u2" (Some 3600) None in
  let body := BodyObject (MoreExamples.favorite_body "u2" "p1") in
  post_favorite 60 "f7" Examples.db_1 user body
  = (SentFavorite 201 Examples.favorite_1, Examples.db_1)
  ∧ check_favorite Examples.db_1 user "p1" = SentIsFavorite true.
Proof.
  intros user body.
  assert (Hfirst : post_favorite 50 "f6" Examples.db_1 user body
                   = (SentFavorite 201 Examples.favorite_1, Examples.db_1))
    by (vm_compute; reflexivity).
  apply (post_favorite_twice 50 60 "f6" "f7" Examples.db_1 Examples.db_1 user
           (Examples.claims_of "u2" 3600) body Examples.favorite_1);
    [reflexivity | exact Hfirst].
Defined.

(** [X25] DELETE /api/favorites/:propertyId removes the caller's favorite for the
    property and nothing else: it answers 204 when the caller had one and 404
    when not, every favorite of another user or for another property stays,
    the users are untouched, and GET /api/favorites/check for the property
    answers [false] afterwards. *)
Theorem delete_favorite_only_own (db : Db) (user : SessionUser) (c : Claims)
    (propertyId : string) :
  claims user = Some c →
  let had := existsb (same_pair (sub c) propertyId) (favorites db) in
  let db' := (delete_favorite db user propertyId).2 in
  (delete_favorite db user propertyId).1
  = (if had then SentEmpty 204 else Sent (message 404 "Favorite not found"))
  ∧ (∀ g, g ∈ favorites db' ↔ g ∈ favorites db ∧ pair_of g ≠ (sub c, propertyId))
  ∧ users db' = users db
  ∧ check_favorite db' user propertyId = SentIsFavorite false.
Proof.
  intros Hc had db'. subst db'.
  destruct (MoreFavoriteFacts.removeFavorite_spec db (sub c) propertyId)
    as (removed & db1 & Hrm & Hremoved & Hget & Hleft & Husers & _).
  unfold delete_favorite. rewrite Hc. simpl.
  unfold Storage.removeFavorite in *. injection Hrm as Hr Hdb.
  rewrite Hr, Hdb. 
  assert (Hhad : removed = had).
  { subst had. destruct removed.
    - destruct (proj1 Hremoved eq_refl) as (f & Hin & Hpair).
      symmetry. apply existsb_exists. exists f.
      split; [by apply list_elem_of_In | by apply FavoriteFacts.same_pair_true].
    - destruct (existsb _ (favorites db)) eqn:Hex; [| done].
      apply existsb_exists in Hex as (f & Hin & Hpair).
      enough (Habs : false = true) by done. apply Hremoved. exists f.
      split; [by apply list_elem_of_In | by apply FavoriteFacts.same_pair_true]. }
  rewrite Hhad.
  assert (Hsnd : ∀ A B : Answer,
            (if negb had then (B, db1) else (A, db1)).2 = db1)
    by (intros; by destruct had).
  assert (Hfst : ∀ A B : Answer,
            (if negb had then (B, db1) else (A, db1)).1 = if had then A else B)
    by (intros; by destruct had).
  rewrite Hfst, Hsnd. split; [done |]. split; [exact Hleft |].
  split; [exact Husers |].
  unfold check_favorite. rewrite Hc.
  replace (IStorage.getFavorite db1 (sub c) propertyId)
    with (Ok (@None Favorite.t)) by (symmetry; exact Hget).
  reflexivity.
Qed.

Lemma delete_favorite_only_own_witness :
  let user := Examples.session_for "u1" (Some 3600) None in
  (delete_favorite Examples.db_1 user "p1").1 = Sent (message 404 "Favorite not found")
  ∧ Examples.favorite_1 ∈ favorites (delete_favorite Examples.db_1 user "p1").2.
Proof.
  intros user.
  destruct (delete_favorite_only_own Examples.db_1 user
              (Examples.claims_of "u1" 3600) "p1") as (Hanswer & Hleft & _);
    [reflexivity |].
  split; [exact Hanswer |].
  apply Hleft. split; [by apply list_elem_of_singleton | discriminate].
Defined.

(** ** The profile routes *)

(** [X26] What PATCH /api/auth/user answers with 200 is what GET /api/auth/user
    answers for the same session on the database the update left. *)
Theorem patch_then_get (now : Z) (uuid : string) (db db' : Db)
    (user : SessionUser) (body : Body) (json : Json) :
  patch_auth_user now uuid db user body = (SendJson 200 json, db') →
  get_auth_user db' user = SendJson 200 json.
Proof.
  unfold patch_auth_user, get_auth_user.
  destruct (claims user) as [c|]; [| done].
  destruct body as [ | | updates]; try done.
  destruct (bool_decide _); [done |].
  change (IStorage.upsertUser now uuid db ?d) with (Storage.upsertUser now uuid db d).
  rewrite UserFacts.upsertUser_result. simpl.
  injection 1 as <- <-. unfold Storage.getUser. simpl.
  by rewrite lookup_insert_eq.
Qed.

Lemma patch_then_get_witness :
  let user := Examples.session_of (Some 3600) None in
  ∃ json db',
    patch_auth_user 200 "uuid-1" Examples.db_1 user
      (BodyObject Examples.body_role_and_bio) = (SendJson 200 json, db')
    ∧ get_auth_user db' user = SendJson 200 json.
Proof.
  intros user.
  destruct (patch_auth_user 200 "uuid-1" Examples.db_1 user
              (BodyObject Examples.body_role_and_bio)) as [response db'] eqn:Hpatch.
  assert (Hresponse : ∃ json, response = SendJson 200 json).
  { vm_compute in Hpatch. injection Hpatch as <- _. eauto. }
  destruct Hresponse as [json ->].
  exists json, db'. split; [done |].
  by apply (patch_then_get 200 "uuid-1" Examples.db_1 db' user
              (BodyObject Examples.body_role_and_bio) json).
Defined.

(** [X27] For a session whose subject has no user record, a valid PATCH
    /api/auth/user creates the record: it gets the subject as id, the role
    [buyer], the phone and bio of the body, no email, name or picture, and
    both timestamps set; the answer is 200 with that record. *)
Theorem patch_creates_missing_record (now : Z) (uuid : string) (db : Db)
    (user : SessionUser) (c : Claims) (updates : gmap string JsVal) :
  claims user = Some c → users db !! sub c = None →
  filteredUpdates updates ≠ ∅ →
  let filtered := filteredUpdates updates in
  let row := {| User.id := sub c;
                User.email := None;
                User.firstName := None;
                User.lastName := None;
                User.profileImageUrl := None;
                User.role := buyer;
                User.phone := col_insert (spread filtered "phone");
                User.bio := col_insert (spread filtered "bio");
                User.createdAt := Some now;
                User.updatedAt := Some now |} in
  patch_auth_user now uuid db user (BodyObject updates)
  = (SendJson 200 (user_json row), set_users db (<[sub c := row]> (users db))).
Proof.
  intros Hc Hnew Hsome filtered row. unfold patch_auth_user. rewrite Hc.
  fold filtered. rewrite bool_decide_eq_false_2.
  2: { intros Hsize. by apply map_size_empty_iff in Hsize. }
  cbn. unfold Storage.upsertUser. cbn. rewrite Hnew. reflexivity.
Qed.

Lemma patch_creates_missing_record_witness :
  let user := Examples.session_for "u7" (Some 3600) None in
  ∃ row db',
    patch_auth_user 200 "uuid-1" Examples.db_1 user
      (BodyObject Examples.body_role_and_bio) = (SendJson 200 (user_json row), db')
    ∧ users db' !! "u7" = Some row
    ∧ User.role row = buyer
    ∧ User.bio row = Some "hi".
Proof.
  intros user. eexists _, _. split.
  - apply (patch_creates_missing_record 200 "uuid-1" Examples.db_1 user
             (Examples.claims_of "u7" 3600) Examples.body_role_and_bio);
      [reflexivity | reflexivity |].
    intros Hempty.
    assert (Hbio : filteredUpdates Examples.body_role_and_bio !! "bio" = None)
      by (rewrite Hempty; apply lookup_empty).
    vm_compute in Hbio. discriminate Hbio.
  - split; [apply lookup_insert_eq |]. split; vm_compute; reflexivity.
Defined.

(** [X28] Whatever the body, PATCH /api/auth/user changes no favorite, no property,
    no role and no record of a user other than the subject of the session. *)
Theorem patch_touches_own_record_only (now : Z) (uuid : string) (db : Db)
    (user : SessionUser) (body : Body) :
  let db' := (patch_auth_user now uuid db user body).2 in
  favorites db' = favorites db
  ∧ properties db' = properties db
  ∧ roles_kept db db'
  ∧ ∀ other, sub <$> claims user ≠ Some other → users db' !! other = users db !! other.
Proof.
  assert (Hsame : favorites db = favorites db ∧ properties db = properties db
                  ∧ roles_kept db db
                  ∧ ∀ other, sub <$> claims user ≠ Some other →
                      users db !! other = users db !! other).
  { repeat split; try done. intros id u Hu. eauto. }
  simpl. unfold patch_auth_user.
  destruct (claims user) as [c|]; [| exact Hsame].
  destruct body as [ | | updates]; try exact Hsame.
  destruct (bool_decide _); [exact Hsame |].
  change (IStorage.upsertUser now uuid db ?d) with (Storage.upsertUser now uuid db d).
  destruct (Storage.upsertUser _ _ _ _) as [[row db']|msg] eqn:Hup; [| exact Hsame].
  destruct (UserFacts.upsertUser_other_tables _ _ _ _ _ _ Hup) as [Hfav Hprop].
  assert (Hkept : roles_kept db db').
  { eapply UserFacts.upsertUser_roles_kept; [| exact Hup]. reflexivity. }
  simpl. split; [done |]. split; [done |]. split; [done |].
  intros other Hne. rewrite UserFacts.upsertUser_result in Hup. simpl in Hup.
  injection Hup as _ <-. simpl. apply lookup_insert_ne. simpl in Hne. congruence.
Qed.

(** ** The message routes *)



(** [X30] GET /api/messages/property/:propertyId shows the agent of the property
    every message of the property, in the order the database returned them,
    and shows any other user exactly the messages that user sent or
    received. *)
Theorem property_messages_visibility (user : SessionUser) (c : Claims)
    (owner : string) (messages : list Message.t) :
  claims user = Some c →
  ∃ shown,
    get_property_messages user (Some owner) messages = SentMessages shown
    ∧ (owner = sub c → shown = messages)
    ∧ (owner ≠ sub c →
         ∀ m, m ∈ shown
              ↔ m ∈ messages
                ∧ (Message.senderId m = sub c ∨ Message.recipientId m = sub c)).
Proof.
  intros Hc. unfold get_property_messages. rewrite Hc.
  eexists. split; [reflexivity |]. split.
  - intros ->. rewrite String.eqb_refl.
    induction messages as [|m ms IH]; [done |]. simpl.
    rewrite orb_true_r. by rewrite IH.
  - intros Hne m. rewrite !list_elem_of_In, filter_In.
    destruct (String.eqb_spec owner (sub c)); [done |].
    rewrite orb_false_r, orb_true_iff, !String.eqb_eq. done.
Qed.

Lemma property_messages_visibility_witness :
  let stranger := Examples.session_for "u3" (Some 3600) None in
  get_property_messages stranger (Some "u1")
    [MoreExamples.message_1; MoreExamples.message_2]
  = SentMessages [MoreExamples.message_2]
  ∧ get_property_messages (Examples.session_for "u1" (Some 3600) None) (Some "u1")
      [MoreExamples.message_1; MoreExamples.message_2]
    = SentMessages [MoreExamples.message_1; MoreExamples.message_2].
Proof.
  intros stranger. split.
  - reflexivity.
  - destruct (property_messages_visibility
                (Examples.session_for "u1" (Some 3600) None)
                (Examples.claims_of "u1" 3600) "u1"
                [MoreExamples.message_1; MoreExamples.message_2])
      as (shown & Hshown & Hall & _); [reflexivity |].
    rewrite Hshown. f_equal. by apply Hall.
Defined.
